(** * rofi-rbw: a shallow embedding of [src/rofi_rbw/rofi_rbw.py]

    The script lists the entries of the [rbw] credential store, shows them
    in a selector, turns the selector's exit status into an action, fetches
    the chosen entry and types or copies one of its fields.

    Layout of the development:
    - [PyStr]: the Python [str] methods and builtins the script calls;
    - exceptions, the external programs (a [World] is what they answer, an
      [Env] adds what fails), and the monad that threads [self] and the
      log of external calls;
    - [RofiRbw]: the class, method by method, and the script's [main];
    - the wording of the specification, as definitions of its own;
    - lemmas about the string functions, then the properties of the
      script. *)

From Stdlib Require Import String Ascii.
From Stdlib Require Import List ZArith NArith Bool Lia.
From Stdlib Require Import Sorted Permutation.
Import ListNotations.
Open Scope list_scope.

Set Implicit Arguments.

(* ------------------------------------------------------------------ *)
(** ** Python strings *)

Module PyStr.

(** A [str] is a sequence of Unicode code points. *)
Definition char := N.
Definition str := list char.

(** [py "abc"] is the [str] whose code points are the bytes of the literal;
    it is only applied to ASCII literals of the source. *)
Definition py (s : string) : str := List.map N_of_ascii (list_ascii_of_string s).

Definition NL : char := 10%N.     (* '\n' *)
Definition TAB : char := 9%N.     (* '\t' *)
Definition SLASH : char := 47%N.  (* '/'  *)

Fixpoint str_eqb (a b : str) : bool :=
  match a, b with
  | [], [] => true
  | x :: a', y :: b' => N.eqb x y && str_eqb a' b'
  | _, _ => false
  end.

(** [c.isspace()] for one code point: the code points that [str.strip()]
    removes when it is called without argument. *)
Definition isspace (c : char) : bool :=
  ((9 <=? c) && (c <=? 13) || (28 <=? c) && (c <=? 32)
   || (c =? 133) || (c =? 160) || (c =? 5760)
   || (8192 <=? c) && (c <=? 8202)
   || (c =? 8232) || (c =? 8233) || (c =? 8239) || (c =? 8287)
   || (c =? 12288))%N.

(** [s.lstrip()], [s.rstrip()], [s.strip()]. *)
Fixpoint lstrip (s : str) : str :=
  match s with
  | [] => []
  | c :: s' => if isspace c then lstrip s' else s
  end.

Fixpoint rstrip (s : str) : str :=
  match s with
  | [] => []
  | c :: s' =>
      match rstrip s' with
      | [] => if isspace c then [] else [c]
      | r => c :: r
      end
  end.

Definition strip (s : str) : str := rstrip (lstrip s).

(** [s.split(sep)] for a separator of one code point (the script only calls
    [split('\n')]).  The result is never empty. *)
Fixpoint split (sep : char) (s : str) : list str :=
  match s with
  | [] => [[]]
  | c :: s' =>
      if N.eqb c sep then [] :: split sep s'
      else match split sep s' with
           | l :: ls => (c :: l) :: ls
           | [] => [[c]]
           end
  end.

(** [s.rsplit(sep, 1)] for a separator of one code point: cut at the last
    occurrence of [sep]; a one-element list when [sep] does not occur. *)
Fixpoint rsplit1 (sep : char) (s : str) : list str :=
  match s with
  | [] => [[]]
  | c :: s' =>
      match rsplit1 sep s' with
      | [a; b] => [c :: a; b]
      | _ => if N.eqb c sep then [[]; s'] else [c :: s']
      end
  end.

(** [sep.join(l)]. *)
Fixpoint join (sep : str) (l : list str) : str :=
  match l with
  | [] => []
  | [x] => x
  | x :: xs => x ++ sep ++ join sep xs
  end.

(** [s.startswith(p)]. *)
Fixpoint startswith (s p : str) {struct p} : bool :=
  match p, s with
  | [], _ => true
  | x :: p', c :: s' => N.eqb x c && startswith s' p'
  | _ :: _, [] => false
  end.

(** [s.replace(old, new)] for a non-empty [old]: scan from the left, and at
    every position where [old] starts emit [new] and resume after the match.
    [skip] counts the code points of the current match still to pass over. *)
Fixpoint replace_from (old new : str) (skip : nat) (s : str) : str :=
  match s with
  | [] => []
  | c :: s' =>
      match skip with
      | S k => replace_from old new k s'
      | O =>
          if startswith s old
          then new ++ replace_from old new (length old - 1) s'
          else c :: replace_from old new 0 s'
      end
  end.

Definition replace (old new : str) (s : str) : str := replace_from old new 0 s.

(** [sub in s]. *)
Fixpoint contains (s sub : str) : bool :=
  startswith s sub
  || match s with
     | [] => false
     | _ :: s' => contains s' sub
     end.

(** [bool(s)]: a string is truthy exactly when it is not empty. *)
Definition bool_of_str (s : str) : bool :=
  match s with
  | [] => false
  | _ :: _ => true
  end.

(** [a < b] on strings: lexicographic on code points, a proper prefix
    being smaller. *)
Fixpoint str_ltb (a b : str) : bool :=
  match a, b with
  | _, [] => false
  | [], _ :: _ => true
  | x :: a', y :: b' =>
      if N.ltb x y then true
      else if N.eqb x y then str_ltb a' b' else false
  end.

(** [sorted(l)] on a list of strings.  The builtin is a stable comparison
    sort that only asks [<]; insertion from the right is one. *)
Fixpoint insert (x : str) (l : list str) : list str :=
  match l with
  | [] => [x]
  | y :: l' => if str_ltb y x then y :: insert x l' else x :: l
  end.

Fixpoint sorted (l : list str) : list str :=
  match l with
  | [] => []
  | x :: l' => insert x (sorted l')
  end.

End PyStr.
Import PyStr.


(* ------------------------------------------------------------------ *)
(** ** Exceptions, external programs and the monad *)

Inductive exn : Type :=
| SystemExit (code : option Z)  (* [sys.exit()] raises [SystemExit(None)] *)
| ValueError                    (* unpacking a sequence of the wrong length *)
| TypeError                     (* a call that cannot bind its parameters *)
| IndexError                    (* [l[i]] out of range *)
| StopIteration                 (* [next] on an exhausted generator *)
| FileNotFoundError             (* [subprocess.run]: no such program *)
| UnicodeDecodeError            (* [subprocess.run]: output that is not UTF-8 *)
| OtherError (name : string).   (* any other exception raised outside the script *)

Inductive Res (A : Type) : Type :=
| Ok (a : A)
| Raise (e : exn).
Arguments Raise {A} e.

(** What the interpreter does when the script ends: the exit status and
    whether a traceback is written to standard error.  [SystemExit] is
    silent and its code [None] means status 0. *)
Definition exit_status {A} (r : Res A) : Z * bool :=
  match r with
  | Ok _ => (0%Z, false)
  | Raise (SystemExit None) => (0%Z, false)
  | Raise (SystemExit (Some n)) => (n, false)
  | Raise _ => (1%Z, true)
  end.

(** The handle of a window, as the typer returns it; the script only hands
    it back to the typer. *)
Definition Window := str.

(** [subprocess.CompletedProcess]. *)
Record CompletedProcess : Type := {
  returncode : Z;
  stdout : str;
  stderr : str
}.

(** The calls that leave the script, in the order they are made. *)
Inductive event : Type :=
| Run (command : list str)                 (* [subprocess.run] *)
| GetActiveWindow                          (* [typer.get_active_window] *)
| ShowSelection (entries prompt : str) (show_help : bool)
                (rofi_args : list str)     (* [selector.show_selection] *)
| TypeCharacters (characters : str) (window : Window)
                                           (* [typer.type_characters] *)
| CopyToClipboard (characters : str).      (* [clipboarder.copy_to_clipboard] *)

(** What lies outside the script: the commands it runs, the bound backends
    (modules [selector], [typer], [clipboarder]) and [shlex.split].  Each is
    taken as it answers. *)
Record World : Type := {
  subprocess_run : list str -> CompletedProcess;
  show_selection_result : str -> str -> bool -> list str -> Z * str;
  active_window_result : Window;
  shlex_split : str -> list str
}.

(** The three classes whose [best_option] binds a backend in [__init__]. *)
Inductive Backend : Type :=
| SelectorClass
| TyperClass
| ClipboarderClass.

(** An environment is a world together with what fails in it: an external
    call may raise instead of answering ([subprocess.run] raises
    [FileNotFoundError] when the program is missing and [UnicodeDecodeError]
    on output that is not UTF-8; a backend raises what it likes),
    [best_option] may find no backend, and [shlex.split] raises [ValueError]
    on a string it rejects, such as one with an unbalanced quote. *)
Record Env : Type := {
  answers : World;
  raises : event -> option exn;
  best_option_raises : Backend -> option str -> option exn;
  shlex_rejects : str -> bool
}.

(** A world, read as an environment, is the one in which every call
    answers: the statements about a [World] are about the runs in which
    nothing outside the script fails. *)
Definition answering (w : World) : Env :=
  {| answers := w;
     raises := fun _ => None;
     best_option_raises := fun _ _ => None;
     shlex_rejects := fun _ => false |}.
Coercion answering : World >-> Env.

Section Monad.
(** [S] is the type of [self]. *)
Variable S : Type.

Definition M (A : Type) : Type :=
  Env -> S -> list event -> Res A * S * list event.

Definition ret {A} (a : A) : M A := fun _ s tr => (Ok a, s, tr).

Definition bind {A B} (m : M A) (k : A -> M B) : M B :=
  fun w s tr =>
    match m w s tr with
    | (Ok a, s', tr') => k a w s' tr'
    | (Raise e, s', tr') => (Raise e, s', tr')
    end.

Definition raise {A} (e : exn) : M A := fun _ s tr => (Raise e, s, tr).

Definition get_self : M S := fun _ s tr => (Ok s, s, tr).
Definition put_self (s : S) : M unit := fun _ _ tr => (Ok tt, s, tr).

(** An external call: log it, and either it raises or its answer is taken
    from the world. *)
Definition call {A} (e : event) (answer : World -> A) : M A :=
  fun w s tr =>
    match raises w e with
    | Some x => (Raise x, s, tr ++ [e])
    | None => (Ok (answer (answers w)), s, tr ++ [e])
    end.

(** [run(command, capture_output=True, encoding='utf-8')].  Without
    [check=True] it returns whatever the exit status is; it raises when
    the program cannot be started or its output cannot be decoded. *)
Definition run (command : list str) : M CompletedProcess :=
  call (Run command) (fun w => subprocess_run w command).

(** [(a, b) = l]. *)
Definition unpack2 {A} (l : list A) : M (A * A) :=
  match l with
  | [a; b] => ret (a, b)
  | _ => raise ValueError
  end.

(** [l[0]]. *)
Definition item0 {A} (l : list A) : M A :=
  match l with
  | a :: _ => ret a
  | [] => raise IndexError
  end.
End Monad.

Arguments ret {S A} a.
Arguments raise {S A} e.
Arguments call {S A} e answer.
Arguments unpack2 {S A} l.
Arguments item0 {S A} l.

Declare Scope py_scope.
Delimit Scope py_scope with py_scope.
Notation "x <- m ;; k" := (bind m (fun x => k))
  (at level 61, m at next level, right associativity) : py_scope.
Notation "' pat <- m ;; k" := (bind m (fun x => match x with pat => k end))
  (at level 61, pat pattern, m at next level, right associativity) : py_scope.
Notation "m ;; k" := (bind m (fun _ => k))
  (at level 61, right associativity) : py_scope.
Open Scope py_scope.

(** Unfolds the monad down to triples of result, [self] and log. *)
Ltac run_monad :=
  unfold run, item0, unpack2;
  unfold bind, ret, raise, call, get_self, put_self;
  cbn beta iota;
  cbn [answering answers raises best_option_raises shlex_rejects].

(* ------------------------------------------------------------------ *)
(** ** The script *)

(** [Data = namedtuple('Data', ['username', 'password'])]. *)
Record Data : Type := { username : str; password : str }.

(** The option values as they reach [argparse], [None] for an option that
    is neither on the command line nor in a configuration file. *)
Record CommandLine : Type := {
  opt_action : option str;
  opt_prompt : option str;
  opt_rofi_args : option str;
  opt_selector : option str;
  opt_clipboarder : option str;
  opt_typer : option str;
  opt_show_help : option str
}.

(** What [argparse] makes of the command line before the declared options
    count: [--help] (which the parser adds) and [--version] print and exit
    with status 0; an unrecognised option, an option without its value, or
    a configuration file the parser cannot read as options, is refused
    with status 2; otherwise the option values are looked at. *)
Inductive Invocation : Type :=
| Help
| Version
| Malformed
| Options (cl : CommandLine).
Coercion Options : CommandLine >-> Invocation.

Module RofiRbw.

Inductive Action : Type :=
| TYPE_PASSWORD
| TYPE_USERNAME
| TYPE_BOTH
| COPY_USERNAME
| COPY_PASSWORD.

Definition value (a : Action) : str :=
  match a with
  | TYPE_PASSWORD => py "type-password"
  | TYPE_USERNAME => py "type-username"
  | TYPE_BOTH => py "autotype"
  | COPY_USERNAME => py "copy-username"
  | COPY_PASSWORD => py "copy-password"
  end.

(** The members of the enumeration, in definition order. *)
Definition members : list Action :=
  [TYPE_PASSWORD; TYPE_USERNAME; TYPE_BOTH; COPY_USERNAME; COPY_PASSWORD].

(** [argparse.Namespace] as [parse_arguments] returns it. *)
Record Namespace : Type := {
  action : Action;
  prompt : str;
  rofi_args : list str;
  selector : option str;
  clipboarder : option str;
  typer : option str;
  show_help : bool
}.

Definition set_action (a : Action) (n : Namespace) : Namespace :=
  {| action := a; prompt := prompt n; rofi_args := rofi_args n;
     selector := selector n; clipboarder := clipboarder n;
     typer := typer n; show_help := show_help n |}.

(** The attributes of [self] the methods read; the three backend objects
    are bound in the [World]. *)
Record t : Type := {
  args : Namespace;
  active_window : Window
}.

Definition with_args (n : Namespace) (self : t) : t :=
  {| args := n; active_window := active_window self |}.

(** [argparse] for an option with [action='store']: an absent option
    keeps its default, a supplied value goes through [type] and, where
    there is one, the [choices] test, whose failure ends the program with
    status 2. *)
Definition store {T} (convert : str -> T) (default : T)
           (allowed : T -> bool) (o : option str) : Res T :=
  match o with
  | None => Ok default
  | Some v =>
      if allowed (convert v) then Ok (convert v)
      else Raise (SystemExit (Some 2%Z))
  end.

Definition one_of (choices : list str) (v : str) : bool :=
  existsb (str_eqb v) choices.

Definition optional_one_of (choices : list str) (v : option str) : bool :=
  match v with
  | Some x => one_of choices x
  | None => true
  end.

Definition any {T} (_ : T) : bool := true.

Definition then_ {A B} (r : Res A) (k : A -> Res B) : Res B :=
  match r with
  | Ok a => k a
  | Raise e => Raise e
  end.

(** The declared options, once [argparse] has the option values. *)
Definition parse_options (w : Env) (cl : CommandLine) : Res Namespace :=
  then_ (store (fun v => v) (value TYPE_PASSWORD)
               (one_of (map value members)) (opt_action cl))
  (fun action_ =>
  then_ (store (fun v => v) (py "Select entry") any (opt_prompt cl))
  (fun prompt_ =>
  then_ (store (fun v => v) [] any (opt_rofi_args cl))
  (fun rofi_args_ =>
  then_ (store Some None (optional_one_of [py "rofi"; py "wofi"])
               (opt_selector cl))
  (fun selector_ =>
  then_ (store Some None
               (optional_one_of [py "xsel"; py "xclip"; py "wl-copy"])
               (opt_clipboarder cl))
  (fun clipboarder_ =>
  then_ (store Some None (optional_one_of [py "xdotool"; py "wtype"])
               (opt_typer cl))
  (fun typer_ =>
  then_ (store bool_of_str true any (opt_show_help cl))
  (fun show_help_ =>
  if shlex_rejects w rofi_args_ then Raise ValueError
  else
    match find (fun a => str_eqb (value a) action_) members with
    | None => Raise StopIteration
    | Some a =>
        Ok {| action := a; prompt := prompt_;
              rofi_args := shlex_split (answers w) rofi_args_;
              selector := selector_; clipboarder := clipboarder_;
              typer := typer_; show_help := show_help_ |}
    end))))))).

Definition parse_arguments (w : Env) (argv : Invocation) : Res Namespace :=
  match argv with
  | Help | Version => Raise (SystemExit (Some 0%Z))
  | Malformed => Raise (SystemExit (Some 2%Z))
  | Options cl => parse_options w cl
  end.

(** [__init__]: the arguments are parsed, the three backends bound by
    [best_option] (selector, typer, clipboarder, in this order; the classes
    belong to modules outside this file, and what they raise when no
    backend is found is the environment's), and the active window asked
    from the typer. *)
Definition init (w : Env) (argv : Invocation) : Res t * list event :=
  match parse_arguments w argv with
  | Raise e => (Raise e, [])
  | Ok a =>
      match best_option_raises w SelectorClass (selector a) with
      | Some e => (Raise e, [])
      | None =>
      match best_option_raises w TyperClass (typer a) with
      | Some e => (Raise e, [])
      | None =>
      match best_option_raises w ClipboarderClass (clipboarder a) with
      | Some e => (Raise e, [])
      | None =>
      match raises w GetActiveWindow with
      | Some e => (Raise e, [GetActiveWindow])
      | None =>
          (Ok {| args := a;
                 active_window := active_window_result (answers w) |},
           [GetActiveWindow])
      end end end end
  end.

Definition sys_exit {A} : M t A := raise (SystemExit None).

Definition assign_action (a : Action) : M t unit :=
  self <- get_self (S:=t) ;;
  put_self (with_args (set_action a (args self)) self).

Definition choose_action_from_return_code (return_code : Z) : M t unit :=
  if (return_code =? 1)%Z then sys_exit
  else if (return_code =? 12)%Z then assign_action TYPE_PASSWORD
  else if (return_code =? 11)%Z then assign_action TYPE_USERNAME
  else if (return_code =? 10)%Z then assign_action TYPE_BOTH
  else if (return_code =? 20)%Z then assign_action COPY_PASSWORD
  else if (return_code =? 21)%Z then assign_action COPY_USERNAME
  else ret tt.

Definition type_characters (characters : str) (window : Window) : M t unit :=
  call (TypeCharacters characters window) (fun _ => tt).

Definition copy_to_clipboard (characters : str) : M t unit :=
  call (CopyToClipboard characters) (fun _ => tt).

Definition execute_action (data : Data) : M t unit :=
  self <- get_self (S:=t) ;;
  match action (args self) with
  | TYPE_PASSWORD => type_characters (password data) (active_window self)
  | TYPE_USERNAME => type_characters (username data) (active_window self)
  | TYPE_BOTH =>
      type_characters (username data ++ [TAB] ++ password data)
                      (active_window self)
  | COPY_PASSWORD => copy_to_clipboard (password data)
  | COPY_USERNAME => copy_to_clipboard (username data)
  end.

Fixpoint extract_username (result : list str) : str :=
  match result with
  | [] => []
  | resultline :: rest =>
      if startswith resultline (py "Username:")
      then replace (py "Username: ") [] resultline
      else extract_username rest
  end.

(** The command line [get_data] builds. *)
Definition get_command (name folder : str) : list str :=
  [py "rbw"; py "get"; py "--full"; name]
  ++ (if negb (str_eqb folder []) then [py "--folder"; folder] else []).

Definition get_data (name folder : str) : M t Data :=
  let command := get_command name folder in
  completed <- run command ;;
  let result := split NL (stdout completed) in
  first <- item0 result ;;
  let password := strip first in
  let username := extract_username result in
  ret {| username := username; password := password |}.

(** A call [self.get_data(...)] with the given positional arguments: the
    two parameters [name] and [folder] have no default, any other number
    of arguments is a [TypeError]. *)
Definition call_get_data (positional : list str) : M t Data :=
  match positional with
  | [name; folder] => get_data name folder
  | _ => raise TypeError
  end.

Definition ls_command : list str :=
  [py "rbw"; py "ls"; py "--fields"; py "name,user"].

(** The two assignments to [entries] at the head of [main]. *)
Definition entries_of (listing : str) : list str :=
  sorted (map (replace [TAB] [SLASH]) (split NL (strip listing))).

Definition show_selection (entries prompt : str) (show_help : bool)
           (rofi_args : list str) : M t (Z * str) :=
  call (ShowSelection entries prompt show_help rofi_args)
       (fun w => show_selection_result w entries prompt show_help rofi_args).

Definition main : M t unit :=
  completed <- run ls_command ;;
  let entries := entries_of (stdout completed) in
  self <- get_self (S:=t) ;;
  '(returncode, entry) <-
     show_selection (join [NL] entries) (prompt (args self))
                    (show_help (args self)) (rofi_args (args self)) ;;
  choose_action_from_return_code returncode ;;
  '(selected_folder, selected_entry) <- unpack2 (rsplit1 SLASH entry) ;;
  data <- call_get_data [strip selected_entry] ;;
  execute_action data.

End RofiRbw.

(** The module [rofi_rbw] itself: its function [main()] is
    [RofiRbw().main()].  The result is how the script ends and everything it
    called outside itself. *)
Module rofi_rbw.
Definition main (w : Env) (argv : Invocation) : Res unit * list event :=
  match RofiRbw.init w argv with
  | (Raise e, tr) => (Raise e, tr)
  | (Ok self, tr) =>
      let '(r, _, tr') := RofiRbw.main w self tr in (r, tr')
  end.
End rofi_rbw.

(* ------------------------------------------------------------------ *)
(** ** Notions used to state the properties *)

(** The credential [get_data] builds from the standard output of the
    [get] command: its last three statements, on a given output. *)
Definition fetched (output : str) : Data :=
  {| username := RofiRbw.extract_username (split NL output);
     password := strip (hd [] (split NL output)) |}.

(** The world [w] with the exit status of every command replaced. *)
Definition with_returncode (status : Z) (w : World) : World :=
  {| subprocess_run := fun command =>
       {| returncode := status;
          stdout := stdout (subprocess_run w command);
          stderr := stderr (subprocess_run w command) |};
     show_selection_result := show_selection_result w;
     active_window_result := active_window_result w;
     shlex_split := shlex_split w |}.

(** The call of the selector in [main], for a listing and a [self]. *)
Definition selection (listing : str) (self : RofiRbw.t) : event :=
  ShowSelection (join [NL] (RofiRbw.entries_of listing))
                (RofiRbw.prompt (RofiRbw.args self))
                (RofiRbw.show_help (RofiRbw.args self))
                (RofiRbw.rofi_args (RofiRbw.args self)).

(** The selector's answer to that call. *)
Definition selected (w : World) (self : RofiRbw.t) : Z * str :=
  show_selection_result w
    (join [NL] (RofiRbw.entries_of (stdout (subprocess_run w RofiRbw.ls_command))))
    (RofiRbw.prompt (RofiRbw.args self))
    (RofiRbw.show_help (RofiRbw.args self))
    (RofiRbw.rofi_args (RofiRbw.args self)).

(** How [main] ends once the selector has answered with an exit status
    other than 1 and the line [entry]: at the unpacking of [rsplit], or at
    the call of [get_data] that follows it. *)
Definition stops_at (entry : str) : exn :=
  match rsplit1 SLASH entry with
  | [_; _] => TypeError
  | _ => ValueError
  end.

(* ------------------------------------------------------------------ *)
(** ** The wording of the specification

    These definitions follow the text of the specification, not the
    script; the theorems compare the two. *)

Module Spec.
Import RofiRbw.

(** The transition table of the action resolver. *)
Inductive outcome : Type :=
| Terminate
| Resolved (a : Action).

Definition resolve_action (exit_code : Z) (configured_default : Action)
  : outcome :=
  match exit_code with
  | 1%Z => Terminate
  | 10%Z => Resolved TYPE_BOTH
  | 11%Z => Resolved TYPE_USERNAME
  | 12%Z => Resolved TYPE_PASSWORD
  | 20%Z => Resolved COPY_PASSWORD
  | 21%Z => Resolved COPY_USERNAME
  | _ => Resolved configured_default
  end.

(** The one delivery of the action executor. *)
Definition delivery (a : Action) (credential : Data) (window : Window)
  : event :=
  match a with
  | TYPE_PASSWORD => TypeCharacters (password credential) window
  | TYPE_USERNAME => TypeCharacters (username credential) window
  | TYPE_BOTH =>
      TypeCharacters (username credential ++ TAB :: password credential)
                     window
  | COPY_PASSWORD => CopyToClipboard (password credential)
  | COPY_USERNAME => CopyToClipboard (username credential)
  end.

(** The display string of a raw record: its tab becomes a slash. *)
Definition display (record : str) : str :=
  map (fun c => if N.eqb c TAB then SLASH else c) record.

(** What the listing command prints for a list of records: one line
    each, every line ended by a newline. *)
Definition listing_of (records : list str) : str :=
  concat (map (fun r => r ++ [NL]) records).

(** Ascending order on strings. *)
Definition str_le (a b : str) : Prop := str_ltb b a = false.

(** "Everything after the fixed prefix [Username: ]". *)
Definition after_prefix (line : str) : str :=
  skipn (length (py "Username: ")) line.

Fixpoint username_of (lines : list str) : str :=
  match lines with
  | [] => []
  | line :: rest =>
      if startswith line (py "Username:") then after_prefix line
      else username_of rest
  end.

Definition credential_of (output : str) : Data :=
  {| username := username_of (split NL output);
     password := strip (hd [] (split NL output)) |}.

(** A record may open a listing if it starts with a code point that is
    not white space, and close one if it ends with such a code point. *)
Definition opens_clean (record : str) : bool :=
  match record with
  | c :: _ => negb (isspace c)
  | [] => false
  end.

Definition closes_clean (record : str) : bool := opens_clean (rev record).

Definition is_show_selection (e : event) : bool :=
  match e with
  | ShowSelection _ _ _ _ => true
  | _ => false
  end.

(** The calls that hand a credential to the typer or the clipboarder. *)
Definition is_delivery (e : event) : bool :=
  match e with
  | TypeCharacters _ _ | CopyToClipboard _ => true
  | _ => false
  end.

(** The calls of the credential store's [get] command. *)
Definition is_fetch (e : event) : bool :=
  match e with
  | Run (_ :: verb :: _) => str_eqb verb (py "get")
  | _ => false
  end.

(** A record is one line. *)
Definition one_line (record : str) : bool := negb (existsb (N.eqb NL) record).

Definition no_username (line : str) : bool :=
  negb (startswith line (py "Username:")).

(** "The entry lister replaces the tab separator in each line, drops the
    blank trailing line, and returns the display strings sorted". *)
Definition lists_every_record (records : list str) : Prop :=
  Permutation (entries_of (listing_of records)) (map display records)
  /\ StronglySorted str_le (entries_of (listing_of records)).

(** "The username is everything after the fixed prefix". *)
Definition parses_as_worded (output : str) : Prop :=
  fetched output = credential_of output.

(** "If the listing command exits with a non-zero status, the program
    terminates without showing any listing to the selector". *)
Definition listing_failure_is_fatal (w : World) (cl : CommandLine) : Prop :=
  returncode (subprocess_run w ls_command) <> 0%Z ->
  existsb is_show_selection (snd (rofi_rbw.main w cl)) = false.

(** "If the get command errors (non-zero exit status or empty output),
    the fetch fails". *)
Definition fetch_failure_is_fatal (w : World) (name folder : str)
           (self : RofiRbw.t) : Prop :=
  returncode (subprocess_run w (get_command name folder)) <> 0%Z
  \/ stdout (subprocess_run w (get_command name folder)) = [] ->
  exists e self' tr, get_data name folder w self [] = (Raise e, self', tr).
End Spec.

(** How [main] ends, from the selector's answer: the clean exit of a
    cancelled selection, or the exception of [stops_at]. *)
Definition ending (w : World) (self : RofiRbw.t) : Res unit :=
  match Spec.resolve_action (fst (selected w self))
                            (RofiRbw.action (RofiRbw.args self)) with
  | Spec.Terminate => Raise (SystemExit None)
  | Spec.Resolved _ => Raise (stops_at (snd (selected w self)))
  end.

(* ------------------------------------------------------------------ *)
(** ** Concrete situations *)

Module Sample.
Import RofiRbw.

Definition lines (l : list str) : str := Spec.listing_of l.

(** No option given. *)
Definition no_options : CommandLine :=
  {| opt_action := None; opt_prompt := None; opt_rofi_args := None;
     opt_selector := None; opt_clipboarder := None; opt_typer := None;
     opt_show_help := None |}.


(** A store that answers [ls] with [listing] and any other command with
    [entry], all with exit status [status]; a selector that answers
    [choice]. *)
Definition world (status : Z) (listing entry : str) (choice : Z * str)
  : World :=
  {| subprocess_run := fun command =>
       {| returncode := status;
          stdout := match command with
                    | [_; verb; _; _] =>
                        if str_eqb verb (py "ls") then listing else entry
                    | _ => entry
                    end;
          stderr := [] |};
     show_selection_result := fun _ _ _ _ => choice;
     active_window_result := py "4194311";
     shlex_split := fun s => match s with [] => [] | _ => [s] end |}.

Definition bob_entry : str := lines [py "secretpw"; py "Username: bob"].

(** The user picks [Work/user1] with the plain confirm key. *)
Definition picks_work : World :=
  world 0 (lines [py "Work" ++ TAB :: py "user1"; py "alice"]) bob_entry
        (0%Z, py "Work/user1" ++ [NL]).

(** The user picks a line without slash. *)
Definition picks_alice : World :=
  world 0 (lines [py "Work" ++ TAB :: py "user1"; py "alice"]) bob_entry
        (0%Z, py "alice" ++ [NL]).

(** The user cancels. *)
Definition cancels : World :=
  world 0 (lines [py "Work" ++ TAB :: py "user1"; py "alice"]) bob_entry
        (1%Z, []).

(** The store is locked: every command exits with status 1 and prints
    nothing on its standard output. *)
Definition locked : World := world 1 [] [] (0%Z, []).

Definition self0 : RofiRbw.t :=
  {| args := {| action := TYPE_PASSWORD; prompt := py "Select entry";
                rofi_args := []; selector := None; clipboarder := None;
                typer := None; show_help := true |};
     active_window := py "4194311" |}.

Definition bob : Data := {| username := py "bob"; password := py "secretpw" |}.
End Sample.

(* ------------------------------------------------------------------ *)
(** ** Notions for the properties beyond the specification *)

(** [c in s] for one code point. *)
Definition mem (c : char) (s : str) : bool := existsb (N.eqb c) s.

(** A string without white space at either end. *)
Definition trimmed (s : str) : bool :=
  match s with
  | [] => true
  | _ :: _ => Spec.opens_clean s && Spec.closes_clean s
  end.

Definition is_typing (e : event) : bool :=
  match e with
  | TypeCharacters _ _ => true
  | _ => false
  end.

Definition is_copying (e : event) : bool :=
  match e with
  | CopyToClipboard _ => true
  | _ => false
  end.

(** An option that is absent or holds one of the listed values. *)
Definition choice_ok (choices : list str) (o : option str) : bool :=
  match o with
  | None => true
  | Some v => existsb (str_eqb v) choices
  end.

(** The four options that [parse_arguments] declares with [choices]. *)
Definition valid_choices (cl : CommandLine) : bool :=
  choice_ok [py "type-password"; py "type-username"; py "autotype";
             py "copy-username"; py "copy-password"] (opt_action cl)
  && choice_ok [py "rofi"; py "wofi"] (opt_selector cl)
  && choice_ok [py "xsel"; py "xclip"; py "wl-copy"] (opt_clipboarder cl)
  && choice_ok [py "xdotool"; py "wtype"] (opt_typer cl).

(** A command line whose only option is [--action v]. *)
Definition only_action (v : str) : CommandLine :=
  {| opt_action := Some v; opt_prompt := None; opt_rofi_args := None;
     opt_selector := None; opt_clipboarder := None; opt_typer := None;
     opt_show_help := None |}.

(** The value of an option, or its default. *)
Definition or_default {T} (default : T) (o : option T) : T :=
  match o with
  | Some v => v
  | None => default
  end.

(** The exceptions the script's own statements end a run with: the exits
    of [argparse] (status 0 for [--help] and [--version], 2 for a refused
    command line), the exit of a cancelled selection, [ValueError] and
    [TypeError]. *)
Definition is_ending (e : exn) : bool :=
  match e with
  | SystemExit None | SystemExit (Some 0%Z) | SystemExit (Some 2%Z)
  | ValueError | TypeError => true
  | _ => false
  end.

(** The exceptions that come from outside the script in an environment:
    raised by an external call or by a [best_option]. *)
Definition raised_outside (env : Env) (e : exn) : Prop :=
  (exists call, raises env call = Some e)
  \/ (exists class name, best_option_raises env class name = Some e).

(** An environment without [rbw]: every [subprocess.run] raises
    [FileNotFoundError], everything else answers as in the world. *)
Definition without_rbw (w : World) : Env :=
  {| answers := w;
     raises := fun call =>
       match call with
       | Run _ => Some FileNotFoundError
       | _ => None
       end;
     best_option_raises := fun _ _ => None;
     shlex_rejects := fun _ => false |}.

(* ------------------------------------------------------------------ *)
(** ** Lemmas about the string functions *)

Section StringFacts.

Lemma startswith_app (p r : str) : startswith (p ++ r) p = true.
Proof.
  induction p as [|x p IH]; simpl; [reflexivity|].
  now rewrite N.eqb_refl, IH.
Qed.

Lemma startswith_single (a c : char) (s : str) :
  startswith (c :: s) [a] = N.eqb a c.
Proof. simpl. now rewrite andb_true_r. Qed.

(** With a one-code-point pattern, [replace] works position by position. *)
Lemma replace_single (a b : char) (s : str) :
  replace [a] [b] s = map (fun c => if N.eqb c a then b else c) s.
Proof.
  unfold replace.
  induction s as [|c s IH]; [reflexivity|].
  cbn [replace_from map]. rewrite startswith_single, (N.eqb_sym a c).
  destruct (N.eqb c a); cbn; now rewrite IH.
Qed.

Lemma replace_from_skip (old new p r : str) :
  replace_from old new (length p) (p ++ r) = replace_from old new 0 r.
Proof.
  induction p as [|x p IH]; simpl; [reflexivity | exact IH].
Qed.

(** A match at the head is replaced and the scan resumes after it. *)
Lemma replace_head (x : char) (old new r : str) :
  replace (x :: old) new ((x :: old) ++ r) = new ++ replace (x :: old) new r.
Proof.
  unfold replace.
  change ((x :: old) ++ r) with (x :: (old ++ r)).
  cbn [replace_from].
  change (x :: old ++ r) with ((x :: old) ++ r).
  rewrite startswith_app.
  cbn [length]. rewrite Nat.sub_succ, Nat.sub_0_r.
  now rewrite replace_from_skip.
Qed.

(** Without any occurrence of the pattern nothing changes. *)
Lemma replace_absent (old new s : str) :
  contains s old = false -> replace old new s = s.
Proof.
  unfold replace.
  induction s as [|c s IH]; intros H; [reflexivity|].
  cbn [contains] in H. apply orb_false_iff in H as [Hhd Htl].
  cbn [replace_from]. rewrite Hhd. now rewrite IH.
Qed.

Lemma lstrip_clean (c : char) (s : str) :
  isspace c = false -> lstrip (c :: s) = c :: s.
Proof. intros H; simpl; now rewrite H. Qed.

Lemma rstrip_nonempty (s : str) (c : char) :
  isspace c = false -> rstrip (s ++ [c]) = s ++ [c].
Proof.
  intros Hc. induction s as [|x s IH]; simpl.
  - now rewrite Hc.
  - rewrite IH. destruct (s ++ [c]) eqn:E; [|reflexivity].
    now destruct s.
Qed.

Lemma rstrip_space (s : str) (c : char) :
  isspace c = true -> rstrip (s ++ [c]) = rstrip s.
Proof.
  intros Hc. induction s as [|x s IH]; simpl.
  - now rewrite Hc.
  - now rewrite IH.
Qed.

Lemma isspace_NL : isspace NL = true.
Proof. reflexivity. Qed.

Lemma split_nonempty (sep : char) (s : str) : split sep s <> [].
Proof.
  destruct s as [|c s]; simpl; [discriminate|].
  destruct (N.eqb c sep); [discriminate|].
  destruct (split sep s); discriminate.
Qed.

Lemma split_free (sep : char) (s : str) :
  ~ In sep s -> split sep s = [s].
Proof.
  induction s as [|c s IH]; intros H; [reflexivity|].
  simpl. destruct (N.eqb_spec c sep) as [->|_].
  - exfalso; apply H; now left.
  - rewrite IH; [reflexivity|]. intros Hin; apply H; now right.
Qed.

Lemma split_app (sep : char) (a b : str) :
  ~ In sep a -> split sep (a ++ sep :: b) = a :: split sep b.
Proof.
  induction a as [|c a IH]; intros H; simpl.
  - now rewrite N.eqb_refl.
  - destruct (N.eqb_spec c sep) as [->|_].
    + exfalso; apply H; now left.
    + rewrite IH; [reflexivity|]. intros Hin; apply H; now right.
Qed.

(** Splitting undoes joining, for a list that is not empty and whose
    members do not hold the separator. *)
Lemma split_join (sep : char) (l : list str) :
  l <> [] -> Forall (fun r => ~ In sep r) l ->
  split sep (join [sep] l) = l.
Proof.
  induction l as [|x l IH]; intros Hne Hall; [congruence|].
  inversion Hall as [|? ? Hx Hl]; subst.
  destruct l as [|y l].
  - simpl. now apply split_free.
  - change (join [sep] (x :: y :: l)) with (x ++ sep :: join [sep] (y :: l)).
    rewrite split_app by assumption.
    rewrite IH; [reflexivity | discriminate | assumption].
Qed.

Lemma rsplit1_free (sep : char) (s : str) :
  ~ In sep s -> rsplit1 sep s = [s].
Proof.
  induction s as [|c s IH]; intros H; [reflexivity|].
  simpl. rewrite IH by (intros Hin; apply H; now right).
  destruct (N.eqb_spec c sep) as [->|_]; [|reflexivity].
  exfalso; apply H; now left.
Qed.

(** [rsplit(sep, 1)] yields one or two parts. *)
Lemma rsplit1_shape (sep : char) (s : str) :
  (exists a, rsplit1 sep s = [a]) \/ (exists a b, rsplit1 sep s = [a; b]).
Proof.
  induction s as [|c s IH]; simpl; [left; now eexists|].
  destruct IH as [[a ->]|[a [b ->]]].
  - destruct (N.eqb c sep); [right | left]; repeat eexists.
  - right; repeat eexists.
Qed.

Example split_trailing_newline :
  split NL (py "a" ++ [NL] ++ py "b" ++ [NL]) = [py "a"; py "b"; []].
Proof. reflexivity. Qed.

Example split_empty : split NL [] = [[]].
Proof. reflexivity. Qed.

Example rsplit1_last_slash : rsplit1 SLASH (py "a/b/c") = [py "a/b"; py "c"].
Proof. reflexivity. Qed.

Example rsplit1_no_slash : rsplit1 SLASH (py "alice") = [py "alice"].
Proof. reflexivity. Qed.

Example replace_every_occurrence :
  replace (py "Username: ") [] (py "Username: a Username: b") = py "a b".
Proof. reflexivity. Qed.

Example replace_needs_the_blank :
  replace (py "Username: ") [] (py "Username:bob") = py "Username:bob".
Proof. reflexivity. Qed.

Example strip_both_ends : strip (py "  a b " ++ [TAB; NL]) = py "a b".
Proof. reflexivity. Qed.

Example sorted_capitals_first :
  sorted [py "alice"; py "Work/user1"; py "Zed"; py "al"]
  = [py "Work/user1"; py "Zed"; py "al"; py "alice"].
Proof. reflexivity. Qed.

End StringFacts.

(* ------------------------------------------------------------------ *)
(** ** The listing: stripping, and the order of [sorted] *)

Section Listing.
Import Spec.

Lemma listing_join (l : list str) :
  l <> [] -> listing_of l = join [NL] l ++ [NL].
Proof.
  unfold listing_of.
  induction l as [|x l IH]; intros Hne; [congruence|].
  destruct l as [|y l].
  - simpl. now rewrite app_nil_r.
  - cbn [map concat] in *. rewrite IH by discriminate.
    change (join [NL] (x :: y :: l)) with (x ++ [NL] ++ join [NL] (y :: l)).
    now rewrite <- !app_assoc.
Qed.

Lemma join_last (sep : str) (l : list str) :
  l <> [] -> exists pre, join sep l = pre ++ last l [].
Proof.
  induction l as [|x l IH]; intros Hne; [congruence|].
  destruct l as [|y l].
  - exists []. reflexivity.
  - destruct IH as [pre Hpre]; [discriminate|].
    exists (x ++ sep ++ pre).
    change (join sep (x :: y :: l)) with (x ++ sep ++ join sep (y :: l)).
    change (last (x :: y :: l) []) with (last (y :: l) []).
    now rewrite Hpre, <- !app_assoc.
Qed.

Lemma closes_clean_inv (r : str) :
  closes_clean r = true ->
  exists s c, r = s ++ [c] /\ isspace c = false.
Proof.
  unfold closes_clean, opens_clean. intros H.
  destruct (rev r) as [|c t] eqn:E; [discriminate|].
  exists (rev t), c. split.
  - rewrite <- (rev_involutive r), E. reflexivity.
  - now apply negb_true_iff.
Qed.

(** A listing that opens and closes on a code point other than white
    space loses exactly its final newline under [strip]. *)
Lemma strip_listing (l : list str) :
  opens_clean (hd [] l) = true -> closes_clean (last l []) = true ->
  strip (listing_of l) = join [NL] l.
Proof.
  intros Hopen Hclose.
  assert (Hne : l <> []) by (destruct l; [discriminate Hopen | discriminate]).
  rewrite listing_join by assumption.
  destruct (join_last [NL] Hne) as [pre Hpre].
  destruct (closes_clean_inv _ Hclose) as [s [c [Hs Hc]]].
  assert (Hhead : exists d rest, join [NL] l = d :: rest /\ isspace d = false).
  { destruct l as [|x l]; [congruence|].
    destruct x as [|d x]; [discriminate Hopen|].
    cbn [hd opens_clean] in Hopen. apply negb_true_iff in Hopen.
    destruct l; simpl; repeat eexists; exact Hopen. }
  destruct Hhead as [d [rest [Hj Hd]]].
  unfold strip.
  rewrite Hj. change ((d :: rest) ++ [NL]) with (d :: (rest ++ [NL])).
  rewrite lstrip_clean by assumption.
  change (d :: rest ++ [NL]) with ((d :: rest) ++ [NL]).
  rewrite rstrip_space by apply isspace_NL.
  rewrite <- Hj, Hpre, Hs, app_assoc.
  now apply rstrip_nonempty.
Qed.

Lemma insert_perm (x : str) (l : list str) : Permutation (insert x l) (x :: l).
Proof.
  induction l as [|y l IH]; simpl; [apply Permutation_refl|].
  destruct (str_ltb y x); [|apply Permutation_refl].
  eapply perm_trans; [apply perm_skip, IH | apply perm_swap].
Qed.

Lemma sorted_perm (l : list str) : Permutation (sorted l) l.
Proof.
  induction l as [|x l IH]; simpl; [constructor|].
  eapply perm_trans; [apply insert_perm | now apply perm_skip].
Qed.

Lemma str_ltb_asym (a b : str) : str_ltb a b = true -> str_ltb b a = false.
Proof.
  revert b; induction a as [|x a IH]; intros [|y b]; simpl; try congruence.
  destruct (N.ltb_spec x y), (N.ltb_spec y x), (N.eqb_spec x y),
    (N.eqb_spec y x); try congruence; try lia.
  apply IH.
Qed.

Lemma str_le_trans (a b c : str) : str_le a b -> str_le b c -> str_le a c.
Proof.
  unfold str_le.
  revert b c; induction a as [|x a IH]; intros [|y b] [|z c]; simpl;
    try congruence.
  destruct (N.ltb_spec y x), (N.ltb_spec z y), (N.ltb_spec z x),
    (N.eqb_spec y x), (N.eqb_spec z y), (N.eqb_spec z x);
    try congruence; try lia.
  apply IH.
Qed.

Lemma insert_sorted (x : str) (l : list str) :
  Sorted str_le l -> Sorted str_le (insert x l).
Proof.
  induction l as [|y l IH]; intros Hs; simpl.
  - repeat constructor.
  - destruct (str_ltb y x) eqn:E.
    + inversion Hs as [|? ? Hl Hhd]; subst.
      constructor; [now apply IH|].
      destruct l as [|z l]; simpl.
      * constructor. now apply str_ltb_asym.
      * destruct (str_ltb z x).
        -- inversion Hhd; now constructor.
        -- constructor. now apply str_ltb_asym.
    + constructor; [assumption | constructor; exact E].
Qed.

Lemma sorted_sorted (l : list str) : StronglySorted str_le (sorted l).
Proof.
  apply Sorted_StronglySorted; [exact str_le_trans|].
  induction l as [|x l IH]; simpl; [constructor | now apply insert_sorted].
Qed.

End Listing.

(* ------------------------------------------------------------------ *)
(** ** The methods, run *)

Section Methods.
Import RofiRbw Spec.

Variable w : World.

Lemma assign_action_run (a : Action) (self : t) (tr : list event) :
  assign_action a w self tr =
  (Ok tt, with_args (set_action a (args self)) self, tr).
Proof. reflexivity. Qed.

Lemma with_same_action (self : t) :
  with_args (set_action (action (args self)) (args self)) self = self.
Proof. destruct self as [[] ?]; reflexivity. Qed.

Lemma resolve_action_other (rc : Z) (d : Action) :
  rc <> 1%Z -> rc <> 10%Z -> rc <> 11%Z -> rc <> 12%Z -> rc <> 20%Z ->
  rc <> 21%Z -> resolve_action rc d = Resolved d.
Proof.
  intros.
  destruct rc as [|p|p]; try reflexivity.
  do 5 (try destruct p as [p|p|]); try reflexivity; congruence.
Qed.

Lemma resolve_action_terminate (rc : Z) (d : Action) :
  resolve_action rc d = Terminate -> rc = 1%Z.
Proof.
  intros E.
  destruct rc as [|p|p]; try discriminate E.
  do 5 (try destruct p as [p|p|]); try discriminate E; reflexivity.
Qed.

(** The resolver against the table, for every exit status and in every
    environment. *)
Lemma choose_action_run (env : Env) (rc : Z) (self : t) (tr : list event) :
  choose_action_from_return_code rc env self tr =
  match resolve_action rc (action (args self)) with
  | Terminate => (Raise (SystemExit None), self, tr)
  | Resolved a => (Ok tt, with_args (set_action a (args self)) self, tr)
  end.
Proof.
  unfold choose_action_from_return_code.
  destruct (Z.eqb_spec rc 1); [subst; reflexivity|].
  destruct (Z.eqb_spec rc 12); [subst; reflexivity|].
  destruct (Z.eqb_spec rc 11); [subst; reflexivity|].
  destruct (Z.eqb_spec rc 10); [subst; reflexivity|].
  destruct (Z.eqb_spec rc 20); [subst; reflexivity|].
  destruct (Z.eqb_spec rc 21); [subst; reflexivity|].
  rewrite resolve_action_other by assumption.
  now rewrite with_same_action.
Qed.

Lemma execute_action_run (data : Data) (self : t) (tr : list event) :
  execute_action data w self tr =
  (Ok tt, self,
   tr ++ [delivery (action (args self)) data (active_window self)]).
Proof.
  unfold execute_action. run_monad.
  destruct (action (args self)); reflexivity.
Qed.

Lemma get_data_run (name folder : str) (self : t) (tr : list event) :
  get_data name folder w self tr =
  (Ok (fetched (stdout (subprocess_run w (get_command name folder)))),
   self, tr ++ [Run (get_command name folder)]).
Proof.
  unfold get_data, fetched. run_monad.
  destruct (split NL (stdout (subprocess_run w (get_command name folder))))
    eqn:E; [now apply split_nonempty in E | reflexivity].
Qed.

(** [main] up to the point where it stops: the listing, the selector,
    the resolver, and then the exception of [stops_at]. *)
Lemma main_run (self : t) (tr : list event) :
  RofiRbw.main w self tr =
  let listing := stdout (subprocess_run w ls_command) in
  let tr' := tr ++ [Run ls_command; selection listing self] in
  match resolve_action (fst (selected w self)) (action (args self)) with
  | Terminate => (Raise (SystemExit None), self, tr')
  | Resolved a =>
      (Raise (stops_at (snd (selected w self))),
       with_args (set_action a (args self)) self, tr')
  end.
Proof.
  unfold RofiRbw.main, show_selection, selection, selected, stops_at.
  run_monad.
  destruct (show_selection_result w _ _ _ _) as [rc entry].
  rewrite choose_action_run. cbn [fst snd].
  rewrite <- app_assoc. cbn [app].
  destruct (resolve_action rc (action (args self))); [reflexivity|].
  unfold call_get_data.
  destruct (rsplit1_shape SLASH entry) as [[x ->]|[x [y ->]]]; reflexivity.
Qed.

(** The same methods where calls may raise. *)
Lemma execute_action_anywhere
      (env : Env) (data : Data) (self : t) (tr : list event) :
  execute_action data env self tr =
  (match raises env (delivery (action (args self)) data (active_window self))
   with
   | Some x => Raise x
   | None => Ok tt
   end,
   self, tr ++ [delivery (action (args self)) data (active_window self)]).
Proof.
  unfold execute_action, type_characters, copy_to_clipboard. run_monad.
  destruct (action (args self)); cbn [delivery app];
    match goal with
    | |- context [raises env ?e] => destruct (raises env e)
    end; reflexivity.
Qed.

Lemma get_data_anywhere
      (env : Env) (name folder : str) (self : t) (tr : list event) :
  get_data name folder env self tr =
  match raises env (Run (get_command name folder)) with
  | Some e => (Raise e, self, tr ++ [Run (get_command name folder)])
  | None =>
      (Ok (fetched (stdout (subprocess_run (answers env)
                                           (get_command name folder)))),
       self, tr ++ [Run (get_command name folder)])
  end.
Proof.
  unfold get_data, fetched. run_monad.
  destruct (raises env (Run (get_command name folder))); [reflexivity|].
  destruct (split NL (stdout (subprocess_run (answers env)
                                             (get_command name folder))))
    eqn:E; [now apply split_nonempty in E | reflexivity].
Qed.

Lemma main_anywhere (env : Env) (self : t) (tr : list event) :
  RofiRbw.main env self tr =
  let listing := stdout (subprocess_run (answers env) ls_command) in
  match raises env (Run ls_command) with
  | Some e => (Raise e, self, tr ++ [Run ls_command])
  | None =>
      let tr' := tr ++ [Run ls_command; selection listing self] in
      match raises env (selection listing self) with
      | Some e => (Raise e, self, tr')
      | None =>
          match resolve_action (fst (selected (answers env) self))
                               (action (args self)) with
          | Terminate => (Raise (SystemExit None), self, tr')
          | Resolved a =>
              (Raise (stops_at (snd (selected (answers env) self))),
               with_args (set_action a (args self)) self, tr')
          end
      end
  end.
Proof.
  unfold RofiRbw.main, show_selection, selection, selected, stops_at.
  run_monad.
  destruct (raises env (Run ls_command)); [reflexivity|].
  rewrite <- app_assoc. cbn [app].
  destruct (raises env (ShowSelection _ _ _ _)); [reflexivity|].
  destruct (show_selection_result (answers env) _ _ _ _) as [rc entry].
  rewrite choose_action_run. cbn [fst snd].
  destruct (resolve_action rc (action (args self))); [reflexivity|].
  unfold call_get_data.
  destruct (rsplit1_shape SLASH entry) as [[x ->]|[x [y ->]]]; reflexivity.
Qed.

End Methods.

(* ------------------------------------------------------------------ *)
(** ** The whole script, run *)

Section Script.
Import RofiRbw Spec.

Variable w : World.

Lemma init_cases (cl : CommandLine) :
  (exists e, init w cl = (Raise e, []))
  \/ (exists self, init w cl = (Ok self, [GetActiveWindow])
                   /\ active_window self = active_window_result w).
Proof.
  unfold init. destruct (parse_arguments w cl) as [a|e].
  - right. eexists; split; reflexivity.
  - left. now exists e.
Qed.

Lemma main_ends (self : t) (tr : list event) :
  exists self',
    RofiRbw.main w self tr =
    (ending w self, self',
     tr ++ [Run ls_command;
            selection (stdout (subprocess_run w ls_command)) self]).
Proof.
  rewrite main_run. unfold ending. cbv zeta.
  destruct (resolve_action _ _); eexists; reflexivity.
Qed.

(** Once the arguments are parsed, the script makes three calls and then
    stops with an exception. *)
Lemma script_run (cl : CommandLine) (self : t) :
  fst (init w cl) = Ok self ->
  rofi_rbw.main w cl =
  (ending w self,
   [GetActiveWindow; Run ls_command;
    selection (stdout (subprocess_run w ls_command)) self]).
Proof.
  intros Hinit. unfold rofi_rbw.main.
  destruct (init_cases cl) as [[e He]|[self0 [H0 _]]].
  - rewrite He in Hinit. discriminate.
  - rewrite H0 in *. cbn [fst] in Hinit. injection Hinit as ->.
    destruct (main_ends self [GetActiveWindow]) as [self' ->].
    reflexivity.
Qed.

(** In any environment and on any command line, the script stops with an
    exception after at most three calls: the active window, the listing,
    the selector. *)
Lemma script_cases (env : Env) (argv : Invocation) :
  (exists e, rofi_rbw.main env argv = (Raise e, []))
  \/ (exists e, rofi_rbw.main env argv = (Raise e, [GetActiveWindow]))
  \/ (exists e, rofi_rbw.main env argv
                = (Raise e, [GetActiveWindow; Run ls_command]))
  \/ (exists e self,
        rofi_rbw.main env argv
        = (Raise e,
           [GetActiveWindow; Run ls_command;
            selection (stdout (subprocess_run (answers env) ls_command))
                      self])).
Proof.
  unfold rofi_rbw.main, init.
  destruct (parse_arguments env argv) as [a|e]; [|left; now exists e].
  destruct (best_option_raises env SelectorClass _) as [e|];
    [left; now exists e|].
  destruct (best_option_raises env TyperClass _) as [e|];
    [left; now exists e|].
  destruct (best_option_raises env ClipboarderClass _) as [e|];
    [left; now exists e|].
  destruct (raises env GetActiveWindow) as [e|];
    [right; left; now exists e|].
  rewrite main_anywhere. cbv zeta. cbn [app].
  destruct (raises env (Run ls_command)) as [e|];
    [right; right; left; now exists e|].
  right; right; right.
  destruct (raises env (selection _ _)) as [e|]; [now repeat eexists|].
  destruct (resolve_action _ _); now repeat eexists.
Qed.

Lemma script_stops_early (env : Env) (argv : Invocation) :
  forallb (fun e => negb (is_fetch e || is_delivery e))
          (snd (rofi_rbw.main env argv)) = true.
Proof.
  destruct (script_cases env argv)
    as [[e ->]|[[e ->]|[[e ->]|[e [self ->]]]]]; reflexivity.
Qed.

Lemma sorted_nonempty (l : list str) : l <> [] -> sorted l <> [].
Proof.
  intros Hne Hs. apply Hne.
  apply Permutation_nil. rewrite <- Hs. apply sorted_perm.
Qed.

Lemma entries_of_nonempty (listing : str) : entries_of listing <> [].
Proof.
  unfold entries_of. apply sorted_nonempty.
  intros H. apply map_eq_nil in H. now apply split_nonempty in H.
Qed.

End Script.

(* ------------------------------------------------------------------ *)
(** ** Properties: the resolver, the executor, the arguments *)

Section Resolver.
  Import RofiRbw Spec.

(** C2: for every selector exit status and configured default action,
    [choose_action_from_return_code] follows the fixed table: status 1 ends
    the program at once ([SystemExit] without code, so exit status 0, no
    message, and in [main] nothing after the selector is called); 10 gives
    type-both, 11 type-username, 12 type-password, 20 copy-password, 21
    copy-username; any other status, 0 included, leaves the configured
    action as it is.  After the call [self.args.action] is the action of
    the table and every other attribute is what it was. *)
Theorem resolver_follows_table
        (w : World) (self : t) (tr : list event) (rc : Z) :
  choose_action_from_return_code rc w self tr =
    match resolve_action rc (action (args self)) with
    | Terminate => (Raise (SystemExit None), self, tr)
    | Resolved a => (Ok tt, with_args (set_action a (args self)) self, tr)
    end
  /\ snd (fst (choose_action_from_return_code rc w self tr)) =
     match resolve_action rc (action (args self)) with
     | Terminate => self
     | Resolved a =>
         {| args := {| action := a;
                       prompt := prompt (args self);
                       rofi_args := rofi_args (args self);
                       selector := selector (args self);
                       clipboarder := clipboarder (args self);
                       typer := typer (args self);
                       show_help := show_help (args self) |};
            active_window := active_window self |}
     end
  /\ map (fun code =>
            action (args (snd (fst (choose_action_from_return_code
                                      code w self tr)))))
         [10; 11; 12; 20; 21; 0; 2; 99]%Z
     = [TYPE_BOTH; TYPE_USERNAME; TYPE_PASSWORD; COPY_PASSWORD;
        COPY_USERNAME; action (args self); action (args self);
        action (args self)]
  /\ map (fun code =>
            fst (fst (choose_action_from_return_code code w self tr)))
         [1; 10; 11; 12; 20; 21; 0; 2; 99]%Z
     = [Raise (SystemExit None); Ok tt; Ok tt; Ok tt; Ok tt; Ok tt; Ok tt;
        Ok tt; Ok tt]
  /\ map (fun code => resolve_action code (action (args self)))
         [1; 10; 11; 12; 20; 21; 0; 2; 99]%Z
     = [Terminate; Resolved TYPE_BOTH; Resolved TYPE_USERNAME;
        Resolved TYPE_PASSWORD; Resolved COPY_PASSWORD;
        Resolved COPY_USERNAME; Resolved (action (args self));
        Resolved (action (args self)); Resolved (action (args self))]
  /\ (rc <> 1 -> rc <> 10 -> rc <> 11 -> rc <> 12 -> rc <> 20 -> rc <> 21 ->
      choose_action_from_return_code rc w self tr = (Ok tt, self, tr))%Z
  /\ exit_status (A:=unit) (Raise (SystemExit None)) = (0%Z, false)
  /\ (fst (selected w self) = 1%Z ->
      RofiRbw.main w self tr =
      (Raise (SystemExit None), self,
       tr ++ [Run ls_command;
              selection (stdout (subprocess_run w ls_command)) self])).
Proof.
  split; [apply choose_action_run|].
  split.
  { rewrite choose_action_run.
    destruct (resolve_action rc (action (args self))); reflexivity. }
  split; [reflexivity|].
  split; [reflexivity|].
  split; [reflexivity|].
  split.
  { intros. rewrite choose_action_run, resolve_action_other by assumption.
    now rewrite with_same_action. }
  split; [reflexivity|].
  intros Hrc. rewrite main_run, Hrc. reflexivity.
Qed.

Lemma resolver_follows_table_witness :
  RofiRbw.main Sample.cancels Sample.self0 [] =
  (Raise (SystemExit None), Sample.self0,
   [Run ls_command;
    selection (stdout (subprocess_run Sample.cancels ls_command)) Sample.self0])
  /\ choose_action_from_return_code 0 Sample.cancels Sample.self0 [] =
     (Ok tt, Sample.self0, []).
Proof.
  pose proof (resolver_follows_table Sample.cancels Sample.self0 [] 0) as H.
  destruct H as [_ [_ [_ [_ [_ [Hother [_ Hcancel]]]]]]].
  split.
  - apply Hcancel. reflexivity.
  - apply Hother; discriminate.
Defined.

(** C8: for every resolved action and fetched credential,
    [execute_action] makes exactly one backend call: type-password types
    the password, type-username the username, type-both the one string
    username, TAB, password (["bob\tsecretpw"] for bob and secretpw), and
    the two copy actions put the field on the clipboard.  Typing goes to
    [self.active_window], which [__init__] asks from the typer once, before
    [main] shows the selector, and which the resolver leaves alone. *)
Theorem executor_delivers_once
        (w : World) (cl : CommandLine) (self : t) (tr : list event)
        (data : Data) (rc : Z) :
  execute_action data w self tr =
    (Ok tt, self,
     tr ++ [delivery (action (args self)) data (active_window self)])
  /\ map (fun a => delivery a data (active_window self)) members
     = [TypeCharacters (password data) (active_window self);
        TypeCharacters (username data) (active_window self);
        TypeCharacters (username data ++ [TAB] ++ password data)
                       (active_window self);
        CopyToClipboard (username data);
        CopyToClipboard (password data)]
  /\ delivery TYPE_BOTH Sample.bob (active_window self)
     = TypeCharacters (py "bob" ++ [TAB] ++ py "secretpw") (active_window self)
  /\ active_window (snd (fst (choose_action_from_return_code rc w self tr)))
     = active_window self
  /\ (fst (init w cl) = Ok self ->
      active_window self = active_window_result w
      /\ snd (init w cl) = [GetActiveWindow]
      /\ snd (rofi_rbw.main w cl) =
         [GetActiveWindow; Run ls_command;
          selection (stdout (subprocess_run w ls_command)) self]).
Proof.
  split; [apply execute_action_run|].
  split; [reflexivity|].
  split; [reflexivity|].
  split.
  { rewrite choose_action_run.
    destruct (resolve_action rc (action (args self))); reflexivity. }
  intros Hinit.
  rewrite (script_run w cl Hinit).
  destruct (init_cases w cl) as [[e He]|[self0 [H0 Hwin]]].
  - rewrite He in Hinit. discriminate.
  - rewrite H0 in *. cbn [fst] in Hinit. injection Hinit as ->.
    repeat split; assumption || reflexivity.
Qed.

Lemma executor_delivers_once_witness :
  active_window Sample.self0 = active_window_result Sample.picks_work
  /\ snd (init Sample.picks_work Sample.no_options) = [GetActiveWindow]
  /\ snd (rofi_rbw.main Sample.picks_work Sample.no_options) =
     [GetActiveWindow; Run ls_command;
      selection (stdout (subprocess_run Sample.picks_work ls_command))
                Sample.self0].
Proof.
  apply (executor_delivers_once Sample.picks_work Sample.no_options
                                Sample.self0 [] Sample.bob 0).
  reflexivity.
Defined.

End Resolver.

Section CommandLineArguments.
Import RofiRbw Spec.







(** C10: when the listing command prints nothing, [entries] is the
    one-element list holding the empty string; whatever it prints,
    [entries] is never the empty list, so the selector is always called
    with a list of at least one, possibly blank, line. *)
Theorem empty_listing_is_one_blank_entry
        (w : World) (self : t) (tr : list event) (listing : str) :
  entries_of [] = [[]]
  /\ entries_of listing <> []
  /\ (stdout (subprocess_run w ls_command) = [] ->
      exists r self',
        RofiRbw.main w self tr =
        (r, self',
         tr ++ [Run ls_command;
                ShowSelection (join [NL] [[]]) (prompt (args self))
                              (show_help (args self))
                              (rofi_args (args self))])).
Proof.
  split; [reflexivity|].
  split; [apply entries_of_nonempty|].
  intros Hout.
  destruct (main_ends w self tr) as [self' Hmain].
  exists (ending w self), self'.
  rewrite Hmain. unfold selection. rewrite Hout. reflexivity.
Qed.

Lemma empty_listing_is_one_blank_entry_witness :
  exists r self',
    RofiRbw.main Sample.locked Sample.self0 [] =
    (r, self',
     [Run ls_command;
      ShowSelection [] (py "Select entry") true []]).
Proof.
  apply (empty_listing_is_one_blank_entry Sample.locked Sample.self0 [] []).
  reflexivity.
Defined.

End CommandLineArguments.

(* ------------------------------------------------------------------ *)
(** ** Properties: the entry lister *)

Section Lister.
Import RofiRbw Spec.

Lemma one_line_free (r : str) : one_line r = true -> ~ In NL r.
Proof.
  unfold one_line. intros H Hin.
  apply negb_true_iff in H.
  assert (existsb (N.eqb NL) r = true) as E.
  { apply existsb_exists. exists NL. split; [assumption | apply N.eqb_refl]. }
  congruence.
Qed.

Lemma one_line_all (l : list str) :
  forallb one_line l = true -> Forall (fun r => ~ In NL r) l.
Proof.
  intros H. apply Forall_forall. intros r Hr.
  apply one_line_free. rewrite forallb_forall in H. now apply H.
Qed.

Lemma replace_tab_display (r : str) : replace [TAB] [SLASH] r = display r.
Proof. apply replace_single. Qed.

(** The entries of a listing that [strip] only relieves of its final
    newline. *)
Lemma entries_of_listing (records : list str) :
  forallb one_line records = true ->
  opens_clean (hd [] records) = true ->
  closes_clean (last records []) = true ->
  entries_of (listing_of records) = sorted (map display records).
Proof.
  intros Hlines Hopen Hclose.
  unfold entries_of.
  rewrite strip_listing by assumption.
  rewrite split_join.
  - f_equal. apply map_ext, replace_tab_display.
  - destruct records; [discriminate Hopen | discriminate].
  - now apply one_line_all.
Qed.

(** C5, as worded, fails: the last record of this listing has an empty
    user field, [strip] takes its tab away with the final newline, and the
    entry is shown as [bank], not as [bank/]. *)
Lemma last_record_loses_its_tab :
  entries_of (listing_of [py "alice" ++ TAB :: py "bob"; py "bank" ++ [TAB]])
    = [py "alice/bob"; py "bank"]
  /\ map display [py "alice" ++ TAB :: py "bob"; py "bank" ++ [TAB]]
    = [py "alice/bob"; py "bank/"]
  /\ ~ lists_every_record [py "alice" ++ TAB :: py "bob"; py "bank" ++ [TAB]].
Proof.
  split; [reflexivity|].
  split; [reflexivity|].
  intros [Hperm _].
  apply Permutation_sym in Hperm.
  apply (Permutation_in (py "bank/")) in Hperm.
  - vm_compute in Hperm. intuition discriminate.
  - vm_compute. right; left; reflexivity.
Qed.

(** C5, amended: for records that are single lines, the first of which
    starts and the last of which ends with a code point that is not white
    space, the entries are the records with every tab turned into a slash,
    without the blank line of the final newline, in ascending
    case-sensitive lexicographic order; the records [Work<TAB>user1] and
    [alice] give exactly [Work/user1], [alice]. *)
Theorem listing_is_displayed_sorted (records : list str) :
  forallb one_line records = true ->
  opens_clean (hd [] records) = true ->
  closes_clean (last records []) = true ->
  entries_of (listing_of records) = sorted (map display records)
  /\ Permutation (entries_of (listing_of records)) (map display records)
  /\ StronglySorted str_le (entries_of (listing_of records))
  /\ entries_of (listing_of [py "Work" ++ TAB :: py "user1"; py "alice"])
     = [py "Work/user1"; py "alice"].
Proof.
  intros Hlines Hopen Hclose.
  rewrite entries_of_listing by assumption.
  split; [reflexivity|].
  split; [apply sorted_perm|].
  split; [apply sorted_sorted | reflexivity].
Qed.

Lemma listing_is_displayed_sorted_witness :
  entries_of (listing_of [py "alice"; py "Work" ++ TAB :: py "user1"])
  = sorted (map display [py "alice"; py "Work" ++ TAB :: py "user1"])
  /\ sorted (map display [py "alice"; py "Work" ++ TAB :: py "user1"])
     = [py "Work/user1"; py "alice"].
Proof.
  split.
  - apply (listing_is_displayed_sorted
             [py "alice"; py "Work" ++ TAB :: py "user1"]); reflexivity.
  - reflexivity.
Defined.

End Lister.

(* ------------------------------------------------------------------ *)
(** ** Properties: the credential fetcher *)

Section Fetcher.
Import RofiRbw Spec.

Lemma extract_username_none (result : list str) :
  forallb no_username result = true -> extract_username result = [].
Proof.
  induction result as [|line rest IH]; intros H; [reflexivity|].
  cbn [forallb] in H. apply andb_true_iff in H as [Hline Hrest].
  unfold no_username in Hline. apply negb_true_iff in Hline.
  cbn [extract_username]. rewrite Hline. now apply IH.
Qed.

Lemma extract_username_first (pre post : list str) (line : str) :
  forallb no_username pre = true ->
  startswith line (py "Username:") = true ->
  extract_username (pre ++ line :: post)
  = replace (py "Username: ") [] line.
Proof.
  intros Hpre Hline.
  induction pre as [|l pre IH]; cbn [app extract_username].
  - now rewrite Hline.
  - cbn [forallb] in Hpre. apply andb_true_iff in Hpre as [Hl Hpre].
    unfold no_username in Hl. apply negb_true_iff in Hl.
    rewrite Hl. now apply IH.
Qed.

Lemma replace_after_prefix (rest : str) :
  contains rest (py "Username: ") = false ->
  replace (py "Username: ") [] (py "Username: " ++ rest) = rest.
Proof.
  intros Habsent.
  change (py "Username: ") with (85%N :: py "sername: ").
  rewrite replace_head. cbn [app].
  now apply replace_absent.
Qed.

(** C4, as worded, fails: [str.replace] deletes every occurrence of
    [Username: ], not only the prefix. *)
Lemma username_loses_every_occurrence :
  fetched (Sample.lines [py "pw"; py "Username: Username: bob"])
    = {| username := py "bob"; password := py "pw" |}
  /\ credential_of (Sample.lines [py "pw"; py "Username: Username: bob"])
    = {| username := py "Username: bob"; password := py "pw" |}
  /\ ~ parses_as_worded (Sample.lines [py "pw"; py "Username: Username: bob"]).
Proof.
  split; [reflexivity|].
  split; [reflexivity|].
  unfold parses_as_worded. vm_compute. discriminate.
Qed.

(** C4, amended: [get_data] returns the first line of the output, trimmed,
    as password; as username the empty string when no line starts with
    [Username:], and otherwise the first such line with every occurrence of
    [Username: ] deleted, which is the text after that prefix when the line
    starts with it and the text does not hold it again.  The output
    [secretpw], [Username: bob] gives [Data(username='bob',
    password='secretpw')]. *)
Theorem fetch_parses_output
        (w : World) (name folder : str) (self : t) (tr : list event)
        (pre post : list str) (line rest : str) :
  let output := stdout (subprocess_run w (get_command name folder)) in
  get_data name folder w self tr =
    (Ok (fetched output), self, tr ++ [Run (get_command name folder)])
  /\ password (fetched output) = strip (hd [] (split NL output))
  /\ (forallb no_username (split NL output) = true ->
      username (fetched output) = [])
  /\ (split NL output = pre ++ line :: post ->
      forallb no_username pre = true ->
      startswith line (py "Username:") = true ->
      username (fetched output) = replace (py "Username: ") [] line
      /\ (line = py "Username: " ++ rest ->
          contains rest (py "Username: ") = false ->
          username (fetched output) = rest))
  /\ fetched (Sample.lines [py "secretpw"; py "Username: bob"]) = Sample.bob.
Proof.
  cbv zeta.
  split; [apply get_data_run|].
  split; [reflexivity|].
  split; [apply extract_username_none|].
  split; [|reflexivity].
  intros Hsplit Hpre Hline.
  assert (username (fetched (stdout (subprocess_run w (get_command name folder))))
          = replace (py "Username: ") [] line) as Huser.
  { unfold fetched. cbn [username]. rewrite Hsplit.
    now apply extract_username_first. }
  split; [exact Huser|].
  intros -> Habsent. rewrite Huser. now apply replace_after_prefix.
Qed.

Lemma fetch_parses_output_witness :
  username (fetched (stdout (subprocess_run Sample.picks_work
                               (get_command (py "user1") (py "Work")))))
  = py "bob".
Proof.
  pose proof (@fetch_parses_output Sample.picks_work (py "user1") (py "Work")
                Sample.self0 [] [py "secretpw"] [[]] (py "Username: bob")
                (py "bob")) as H.
  cbv zeta in H.
  destruct H as [_ [_ [_ [H _]]]].
  destruct (H eq_refl eq_refl eq_refl) as [_ Hrest].
  exact (Hrest eq_refl eq_refl).
Defined.

(** C7, as worded, fails: with the store locked the [get] command exits
    with status 1 and prints nothing, and [get_data] returns a credential
    of two empty strings instead of failing. *)
Lemma failed_fetch_returns_a_credential :
  returncode (subprocess_run Sample.locked (get_command (py "alice") [])) = 1%Z
  /\ stdout (subprocess_run Sample.locked (get_command (py "alice") [])) = []
  /\ get_data (py "alice") [] Sample.locked Sample.self0 []
     = (Ok {| username := []; password := [] |}, Sample.self0,
        [Run [py "rbw"; py "get"; py "--full"; py "alice"]])
  /\ ~ fetch_failure_is_fatal Sample.locked (py "alice") [] Sample.self0.
Proof.
  split; [reflexivity|].
  split; [reflexivity|].
  split; [reflexivity|].
  intros H.
  destruct H as [e [self' [tr H]]]; [left; discriminate|].
  rewrite get_data_run in H. discriminate H.
Qed.

(** C7, amended: [get_data] has no failure of its own.  It makes the one
    call of [subprocess.run] and raises only what that call raises (the
    program is missing, its output is not UTF-8); when the command has
    run, [get_data] looks neither at its exit status nor at whether it
    printed anything, and returns the credential read from its standard
    output, which for an empty output is the credential of two empty
    strings.  [execute_action] delivers the credential it is handed,
    whatever its fields. *)
Theorem fetch_ignores_failure
        (env : Env) (w : World) (status : Z) (name folder : str) (self : t)
        (tr : list event) :
  get_data name folder env self tr
    = match raises env (Run (get_command name folder)) with
      | Some e => (Raise e, self, tr ++ [Run (get_command name folder)])
      | None =>
          (Ok (fetched (stdout (subprocess_run (answers env)
                                               (get_command name folder)))),
           self, tr ++ [Run (get_command name folder)])
      end
  /\ get_data name folder (with_returncode status w) self tr
     = get_data name folder w self tr
  /\ get_data name folder w self tr
     = (Ok (fetched (stdout (subprocess_run w (get_command name folder)))),
        self, tr ++ [Run (get_command name folder)])
  /\ fetched [] = {| username := []; password := [] |}
  /\ (data <- get_data name folder ;; execute_action data) w self tr
     = (Ok tt, self,
        tr ++ [Run (get_command name folder);
               delivery (action (args self))
                        (fetched (stdout (subprocess_run w
                                             (get_command name folder))))
                        (active_window self)]).
Proof.
  split; [apply get_data_anywhere|].
  split; [now rewrite !get_data_run|].
  split; [apply get_data_run|].
  split; [reflexivity|].
  unfold bind at 1. rewrite get_data_run, execute_action_run.
  now rewrite <- app_assoc.
Qed.

End Fetcher.

(* ------------------------------------------------------------------ *)
(** ** Properties: the run from listing to delivery *)

Section Run.
Import RofiRbw Spec.

(** C6, as worded, fails: with the store locked the listing command exits
    with status 1, and the selector is shown all the same, with the one
    blank entry of an empty listing. *)
Lemma failed_listing_is_shown :
  returncode (subprocess_run Sample.locked ls_command) = 1%Z
  /\ snd (rofi_rbw.main Sample.locked Sample.no_options)
     = [GetActiveWindow; Run ls_command;
        ShowSelection [] (py "Select entry") true []]
  /\ ~ listing_failure_is_fatal Sample.locked Sample.no_options.
Proof.
  split; [reflexivity|].
  split; [reflexivity|].
  intros H. assert (1 <> 0)%Z as Hne by discriminate.
  apply H in Hne. vm_compute in Hne. discriminate Hne.
Qed.

(** C6, amended: [main] does not look at the exit status of the listing
    command: whatever the status, it runs the command, builds the entries
    from its standard output and shows them in the selector. *)
Theorem listing_status_is_ignored
        (w : World) (status : Z) (self : t) (tr : list event) :
  RofiRbw.main (with_returncode status w) self tr = RofiRbw.main w self tr
  /\ exists r self',
       RofiRbw.main w self tr =
       (r, self',
        tr ++ [Run ls_command;
               ShowSelection
                 (join [NL] (entries_of (stdout (subprocess_run w ls_command))))
                 (prompt (args self)) (show_help (args self))
                 (rofi_args (args self))]).
Proof.
  split.
  - now rewrite !main_run.
  - destruct (main_ends w self tr) as [self' H].
    now exists (ending w self), self'.
Qed.

(** A chosen line without slash stops [main] at the unpacking, whatever
    the action. *)
Lemma no_slash_stops_main (w : World) (self : t) (tr : list event) :
  fst (selected w self) <> 1%Z ->
  ~ In SLASH (snd (selected w self)) ->
  fst (fst (RofiRbw.main w self tr)) = Raise ValueError.
Proof.
  intros Hrc Hfree.
  destruct (main_ends w self tr) as [self' ->]. cbn [fst].
  unfold ending, stops_at. rewrite rsplit1_free by assumption.
  destruct (resolve_action (fst (selected w self)) (action (args self)))
    eqn:E; [|reflexivity].
  exfalso. apply Hrc. exact (resolve_action_terminate _ _ E).
Qed.

(** A chosen line with a slash stops [main] at the call of [get_data]. *)
Lemma slash_stops_main (w : World) (self : t) (tr : list event) :
  fst (selected w self) <> 1%Z ->
  In SLASH (snd (selected w self)) ->
  fst (fst (RofiRbw.main w self tr)) = Raise TypeError.
Proof.
  intros Hrc Hin.
  destruct (main_ends w self tr) as [self' ->]. cbn [fst].
  unfold ending, stops_at.
  assert (exists a b, rsplit1 SLASH (snd (selected w self)) = [a; b]) as Hcut.
  { induction (snd (selected w self)) as [|c s IH]; [contradiction|].
    cbn [rsplit1].
    destruct (rsplit1_shape SLASH s) as [[x Hx]|[x [y Hxy]]].
    - rewrite Hx. destruct (N.eqb_spec c SLASH) as [->|Hc].
      + repeat eexists.
      + destruct Hin as [Heq|Hin]; [congruence|].
        destruct (IH Hin) as [a [b Hab]]. congruence.
    - rewrite Hxy. repeat eexists. }
  destruct Hcut as [a [b ->]].
  destruct (resolve_action (fst (selected w self)) (action (args self)))
    eqn:E; [|reflexivity].
  exfalso. apply Hrc. exact (resolve_action_terminate _ _ E).
Qed.

(** C1: the user picks [Work/user1] with exit status 0.  [get_data] is
    declared with the two parameters [name] and [folder], and [main] calls
    it with the name alone: the call raises [TypeError] before any [get]
    command runs, and nothing is typed or copied.  In no run at all does
    the script reach a fetch or a delivery. *)
Theorem chosen_entry_is_never_fetched :
  rofi_rbw.main Sample.picks_work Sample.no_options
    = (Raise TypeError,
       [GetActiveWindow; Run ls_command;
        ShowSelection (py "Work/user1" ++ NL :: py "alice")
                      (py "Select entry") true []])
  /\ call_get_data [py "user1"] Sample.picks_work Sample.self0 []
     = (Raise TypeError, Sample.self0, [])
  /\ call_get_data [py "user1"; py "Work"] Sample.picks_work Sample.self0 []
     = (Ok Sample.bob, Sample.self0,
        [Run [py "rbw"; py "get"; py "--full"; py "user1";
              py "--folder"; py "Work"]])
  /\ forall w cl,
       forallb (fun e => negb (is_fetch e || is_delivery e))
               (snd (rofi_rbw.main w cl)) = true.
Proof.
  split; [reflexivity|].
  split; [reflexivity|].
  split; [reflexivity|].
  apply script_stops_early.
Qed.

(** C3: the user picks the line [alice], which has no slash.
    [rsplit('/', 1)] returns the one-element list of the whole line, the
    unpacking into folder and entry raises [ValueError], and no [get]
    command runs; [get_data] itself, given the empty folder, would leave
    [--folder] out. *)
Theorem line_without_slash_is_not_unpacked :
  rsplit1 SLASH (py "alice" ++ [NL]) = [py "alice" ++ [NL]]
  /\ rofi_rbw.main Sample.picks_alice Sample.no_options
     = (Raise ValueError,
        [GetActiveWindow; Run ls_command;
         ShowSelection (py "Work/user1" ++ NL :: py "alice")
                       (py "Select entry") true []])
  /\ get_command (py "alice") [] = [py "rbw"; py "get"; py "--full"; py "alice"]
  /\ get_command (py "user1") (py "Work")
     = [py "rbw"; py "get"; py "--full"; py "user1"; py "--folder"; py "Work"].
Proof.
  repeat split; reflexivity.
Qed.

End Run.

(* ------------------------------------------------------------------ *)
(** ** More about the string functions *)

Section MoreStringFacts.
Import Spec.

Lemma str_eqb_eq (a b : str) : str_eqb a b = true <-> a = b.
Proof.
  revert b; induction a as [|x a IH]; intros [|y b]; simpl;
    split; intros H; try reflexivity; try discriminate H.
  - apply andb_true_iff in H as [Hx Ha].
    apply N.eqb_eq in Hx. apply IH in Ha. congruence.
  - injection H as -> ->. rewrite N.eqb_refl. now apply IH.
Qed.

Lemma str_eqb_sym (a b : str) : str_eqb a b = str_eqb b a.
Proof.
  revert b; induction a as [|x a IH]; intros [|y b]; simpl; try reflexivity.
  now rewrite N.eqb_sym, IH.
Qed.

Lemma mem_In (c : char) (s : str) : mem c s = true <-> In c s.
Proof.
  unfold mem. rewrite existsb_exists. split.
  - intros [x [Hin Hx]]. apply N.eqb_eq in Hx. now subst.
  - intros Hin. exists c. split; [assumption | apply N.eqb_refl].
Qed.

Lemma mem_not_In (c : char) (s : str) : mem c s = false <-> ~ In c s.
Proof.
  rewrite <- mem_In. destruct (mem c s); split; congruence.
Qed.

(** The parts of a split do not hold the separator. *)
Lemma split_parts_free (sep : char) (s : str) :
  Forall (fun part => ~ In sep part) (split sep s).
Proof.
  induction s as [|c s IH]; simpl.
  - constructor; [intros [] | constructor].
  - destruct (N.eqb_spec c sep) as [->|Hc].
    + constructor; [intros [] | assumption].
    + destruct (split sep s) as [|l ls].
      * constructor; [|constructor]. intros [H|[]]. congruence.
      * inversion IH as [|? ? Hl Hls]; subst.
        constructor; [|assumption].
        intros [H|H]; [congruence | now apply Hl].
Qed.

Lemma join_cons (sep : str) (x y : str) (l : list str) :
  join sep (x :: y :: l) = x ++ sep ++ join sep (y :: l).
Proof. reflexivity. Qed.

(** Joining undoes splitting, for every string. *)
Lemma join_split (sep : char) (s : str) : join [sep] (split sep s) = s.
Proof.
  induction s as [|c s IH]; [reflexivity|].
  simpl split. destruct (N.eqb_spec c sep) as [->|Hc].
  - destruct (split sep s) as [|l ls] eqn:E; [now apply split_nonempty in E|].
    rewrite join_cons, IH. reflexivity.
  - destruct (split sep s) as [|l ls] eqn:E; [now apply split_nonempty in E|].
    rewrite <- IH. destruct ls; reflexivity.
Qed.

Lemma rsplit1_one (sep : char) (s x : str) :
  rsplit1 sep s = [x] -> x = s /\ ~ In sep s.
Proof.
  revert x; induction s as [|c s IH]; intros x H.
  - simpl in H. injection H as <-. split; [reflexivity | intros []].
  - simpl in H.
    destruct (rsplit1_shape sep s) as [[y Hy]|[y [z Hyz]]].
    + rewrite Hy in H. destruct (IH _ Hy) as [-> Hfree].
      destruct (N.eqb_spec c sep) as [->|Hc]; [discriminate H|].
      injection H as <-. split; [reflexivity|].
      intros [Heq|Hin]; [congruence | now apply Hfree].
    + rewrite Hyz in H. discriminate H.
Qed.

(** The two parts of [rsplit(sep, 1)] are what lies before and after the
    last separator. *)
Lemma rsplit1_two (sep : char) (s a b : str) :
  rsplit1 sep s = [a; b] -> s = a ++ sep :: b /\ ~ In sep b.
Proof.
  revert a b; induction s as [|c s IH]; intros a b H.
  - discriminate H.
  - simpl in H.
    destruct (rsplit1_shape sep s) as [[y Hy]|[y [z Hyz]]].
    + rewrite Hy in H. destruct (rsplit1_one _ _ Hy) as [-> Hfree].
      destruct (N.eqb_spec c sep) as [->|Hc]; [|discriminate H].
      injection H as <- <-. split; [reflexivity | assumption].
    + rewrite Hyz in H. injection H as <- <-.
      destruct (IH _ _ Hyz) as [-> Hfree]. split; [reflexivity | assumption].
Qed.

Lemma rsplit1_slash (sep : char) (s : str) :
  In sep s -> exists a b, rsplit1 sep s = [a; b].
Proof.
  intros Hin.
  destruct (rsplit1_shape sep s) as [[x Hx]|Htwo]; [|assumption].
  apply rsplit1_one in Hx as [_ Hfree]. contradiction.
Qed.

Lemma stops_at_mem (entry : str) :
  stops_at entry = if mem SLASH entry then TypeError else ValueError.
Proof.
  unfold stops_at. destruct (mem SLASH entry) eqn:E.
  - apply mem_In in E. destruct (rsplit1_slash _ _ E) as [a [b ->]].
    reflexivity.
  - apply mem_not_In in E. now rewrite rsplit1_free.
Qed.

End MoreStringFacts.

(* ------------------------------------------------------------------ *)
(** ** More about [strip] and [sorted] *)

Section TrimAndOrder.
Import Spec.

Lemma lstrip_result (s : str) : lstrip s = [] \/ opens_clean (lstrip s) = true.
Proof.
  induction s as [|c s IH]; simpl; [now left|].
  destruct (isspace c) eqn:E; [assumption|].
  right. simpl. now rewrite E.
Qed.

Lemma opens_clean_app (a b : str) :
  opens_clean a = true -> opens_clean (a ++ b) = true.
Proof. destruct a; [discriminate | trivial]. Qed.

Lemma rstrip_result (s : str) : rstrip s = [] \/ closes_clean (rstrip s) = true.
Proof.
  induction s as [|c s IH]; simpl; [now left|].
  destruct (rstrip s) as [|d r] eqn:E.
  - destruct (isspace c) eqn:Ec; [now left|].
    right. unfold closes_clean. simpl. now rewrite Ec.
  - right. destruct IH as [IH|IH]; [discriminate IH|].
    unfold closes_clean in *.
    change (rev (c :: d :: r)) with (rev (d :: r) ++ [c]).
    now apply opens_clean_app.
Qed.

Lemma rstrip_keeps_head (c : char) (s : str) :
  isspace c = false -> exists r, rstrip (c :: s) = c :: r.
Proof.
  intros Hc. simpl. destruct (rstrip s).
  - rewrite Hc. now eexists.
  - now eexists.
Qed.

(** What [strip] returns has no white space at either end. *)
Lemma strip_trimmed (s : str) : trimmed (strip s) = true.
Proof.
  unfold strip.
  destruct (lstrip_result s) as [->|Hopen]; [reflexivity|].
  destruct (lstrip s) as [|c t] eqn:E; [reflexivity|].
  simpl in Hopen. apply negb_true_iff in Hopen.
  destruct (@rstrip_keeps_head c t Hopen) as [r Hr].
  destruct (rstrip_result (c :: t)) as [H|H]; [congruence|].
  rewrite Hr in *. unfold trimmed. rewrite H.
  simpl. now rewrite Hopen.
Qed.

Lemma lstrip_incl (s : str) (x : char) : In x (lstrip s) -> In x s.
Proof.
  induction s as [|c s IH]; simpl; [trivial|].
  destruct (isspace c); [right; now apply IH | trivial].
Qed.

Lemma rstrip_incl (s : str) (x : char) : In x (rstrip s) -> In x s.
Proof.
  induction s as [|c s IH]; simpl; [trivial|].
  destruct (rstrip s) as [|d r].
  - destruct (isspace c); [intros [] | intros [H|[]]; now left].
  - intros [H|H]; [now left | right; now apply IH].
Qed.

Lemma strip_incl (s : str) (x : char) : In x (strip s) -> In x s.
Proof. intros H. now apply lstrip_incl, rstrip_incl. Qed.

(** A trimmed string is left alone by [strip]. *)
Lemma strip_fixed (s : str) : trimmed s = true -> strip s = s.
Proof.
  destruct s as [|c s]; [reflexivity|].
  unfold trimmed. intros H. apply andb_true_iff in H as [Hopen Hclose].
  simpl in Hopen. apply negb_true_iff in Hopen.
  unfold strip. rewrite lstrip_clean by assumption.
  destruct (closes_clean_inv _ Hclose) as [t [d [-> Hd]]].
  now apply rstrip_nonempty.
Qed.

Lemma str_ltb_irrefl (a : str) : str_ltb a a = false.
Proof.
  induction a as [|x a IH]; [reflexivity|].
  simpl. now rewrite N.ltb_irrefl, N.eqb_refl.
Qed.

Lemma str_le_antisym (a b : str) : str_le a b -> str_le b a -> a = b.
Proof.
  unfold str_le.
  revert b; induction a as [|x a IH]; intros [|y b]; simpl;
    try congruence.
  destruct (N.ltb_spec y x), (N.ltb_spec x y), (N.eqb_spec y x),
    (N.eqb_spec x y); try congruence; try lia.
  intros Hba Hab. f_equal; [assumption | now apply IH].
Qed.

(** Two ascending lists with the same members are the same list. *)
Lemma ascending_unique (l1 l2 : list str) :
  StronglySorted str_le l1 -> StronglySorted str_le l2 ->
  Permutation l1 l2 -> l1 = l2.
Proof.
  intros H1; revert l2.
  induction H1 as [|x t1 Ht1 IH Hx]; intros l2 H2 Hperm.
  - now apply Permutation_nil in Hperm.
  - destruct l2 as [|y t2].
    + apply Permutation_sym, Permutation_nil in Hperm. discriminate.
    + inversion H2 as [|? ? Ht2 Hy]; subst.
      assert (x = y) as ->.
      { assert (In y (x :: t1)) as Hyin
            by (eapply Permutation_in;
                [apply Permutation_sym; eassumption | now left]).
        assert (In x (y :: t2)) as Hxin
            by (eapply Permutation_in; [eassumption | now left]).
        destruct Hyin as [->|Hyin]; [reflexivity|].
        destruct Hxin as [->|Hxin]; [reflexivity|].
        rewrite Forall_forall in Hx, Hy.
        apply str_le_antisym; [now apply Hx | now apply Hy]. }
      f_equal. apply IH; [assumption|].
      now apply Permutation_cons_inv in Hperm.
Qed.

Lemma sorted_permuted (l l' : list str) :
  Permutation l l' -> sorted l = sorted l'.
Proof.
  intros Hperm. apply ascending_unique; try apply sorted_sorted.
  eapply perm_trans; [apply sorted_perm|].
  eapply perm_trans; [eassumption|].
  apply Permutation_sym, sorted_perm.
Qed.

Lemma sorted_fixed (l : list str) : StronglySorted str_le l -> sorted l = l.
Proof.
  intros H. apply ascending_unique;
    [apply sorted_sorted | assumption | apply sorted_perm].
Qed.

End TrimAndOrder.

(* ------------------------------------------------------------------ *)
(** ** Further properties: the entries shown *)

Section Entries.
Import RofiRbw Spec.

Lemma display_free (c : char) (r : str) :
  c <> SLASH -> In c (display r) -> In c r.
Proof.
  intros Hc. unfold display. rewrite in_map_iff.
  intros [x [Hx Hin]].
  destruct (N.eqb_spec x TAB); [congruence | now subst].
Qed.

Lemma display_no_tab (r : str) : ~ In TAB (display r).
Proof.
  unfold display. rewrite in_map_iff. intros [x [Hx Hin]].
  destruct (N.eqb_spec x TAB); [discriminate Hx | congruence].
Qed.

Lemma join_members (sep : str) (l : list str) (c : char) :
  In c (join sep l) -> In c sep \/ exists x, In x l /\ In c x.
Proof.
  induction l as [|x l IH]; [intros []|].
  destruct l as [|y l].
  - simpl. intros H. right. exists x. split; [now left | assumption].
  - rewrite join_cons, !in_app_iff. intros [H|[H|H]].
    + right. exists x. split; [now left | assumption].
    + now left.
    + destruct (IH H) as [Hs|[z [Hz Hc]]]; [now left|].
      right. exists z. split; [now right | assumption].
Qed.

Lemma display_join (l : list str) :
  display (join [NL] l) = join [NL] (map display l).
Proof.
  induction l as [|x l IH]; [reflexivity|].
  destruct l as [|y l]; [reflexivity|].
  rewrite join_cons. cbn [map] in *. rewrite join_cons, <- IH.
  unfold display. now rewrite !map_app.
Qed.

Lemma entry_lines (listing : str) :
  Forall (fun e => ~ In TAB e /\ ~ In NL e) (entries_of listing).
Proof.
  unfold entries_of.
  eapply Permutation_Forall; [apply Permutation_sym, sorted_perm|].
  apply Forall_map.
  eapply Forall_impl; [|apply (split_parts_free NL (strip listing))].
  intros r Hr. cbv beta. rewrite replace_tab_display. split.
  - apply display_no_tab.
  - intros H. apply Hr. now apply display_free in H.
Qed.

(** X1: whatever the listing command prints, the entries are its lines,
    taken after the white space at both ends of the output is stripped and
    with tabs turned into slashes: none is lost or repeated, and they are in
    ascending order. *)
Theorem entries_are_the_lines_in_order (listing : str) :
  StronglySorted str_le (entries_of listing)
  /\ Permutation (entries_of listing)
                 (map display (split NL (strip listing)))
  /\ length (entries_of listing) = length (split NL (strip listing)).
Proof.
  assert (Permutation (entries_of listing)
                      (map display (split NL (strip listing)))) as Hperm.
  { unfold entries_of.
    rewrite (map_ext _ _ replace_tab_display). apply sorted_perm. }
  split; [apply sorted_sorted|].
  split; [exact Hperm|].
  rewrite (Permutation_length Hperm). apply length_map.
Qed.

(** X2: the text handed to the selector never holds a tab, and every entry
    is a single line, so the selector sees the entries exactly as [main]
    ordered them. *)
Theorem selector_input_has_no_tab (listing : str) :
  ~ In TAB (join [NL] (entries_of listing))
  /\ Forall (fun e => ~ In TAB e /\ ~ In NL e) (entries_of listing)
  /\ split NL (join [NL] (entries_of listing)) = entries_of listing.
Proof.
  pose proof (entry_lines listing) as Hall.
  split; [|split; [exact Hall|]].
  - intros H. apply join_members in H as [[H|[]]|[e [He Hc]]].
    + discriminate H.
    + rewrite Forall_forall in Hall.
      destruct (Hall e He) as [Htab _]. now apply Htab.
  - apply split_join; [apply entries_of_nonempty|].
    eapply Forall_impl; [|exact Hall]. now intros e [_ H].
Qed.

(** X3: the order in which the listing command prints its lines does not
    matter: two outputs with the same lines, in any order, give the same
    entries. *)
Theorem entries_do_not_depend_on_order (a b : str) :
  Permutation (split NL (strip a)) (split NL (strip b)) ->
  entries_of a = entries_of b.
Proof.
  intros Hperm. unfold entries_of.
  apply sorted_permuted. now apply Permutation_map.
Qed.

Lemma entries_do_not_depend_on_order_witness :
  entries_of (listing_of [py "bank" ++ TAB :: py "b"; py "Work" ++ TAB :: py "u"])
  = entries_of (listing_of [py "Work" ++ TAB :: py "u"; py "bank" ++ TAB :: py "b"]).
Proof.
  apply entries_do_not_depend_on_order.
  vm_compute. apply perm_swap.
Defined.

(** X4: when the lines of the stripped listing are already in ascending
    order, the selector is handed the stripped listing itself, with its
    tabs turned into slashes. *)
Theorem ordered_listing_is_shown_as_is (listing : str) :
  StronglySorted str_le (map display (split NL (strip listing))) ->
  join [NL] (entries_of listing) = display (strip listing).
Proof.
  intros Hsorted. unfold entries_of.
  rewrite (map_ext _ _ replace_tab_display).
  rewrite sorted_fixed by assumption.
  now rewrite <- display_join, join_split.
Qed.

Lemma ordered_listing_is_shown_as_is_witness :
  join [NL] (entries_of (listing_of [py "Work" ++ TAB :: py "u"; py "alice"]))
  = py "Work/u" ++ NL :: py "alice".
Proof.
  apply (ordered_listing_is_shown_as_is
           (listing_of [py "Work" ++ TAB :: py "u"; py "alice"])).
  vm_compute. repeat constructor.
Defined.

End Entries.

(* ------------------------------------------------------------------ *)
(** ** Further properties: the credential, the resolver, the executor *)

Section Credential.
Import RofiRbw Spec.

Lemma replace_from_incl (old : str) (k : nat) (s : str) (x : char) :
  In x (replace_from old [] k s) -> In x s.
Proof.
  revert k; induction s as [|c s IH]; intros k; [trivial|].
  cbn [replace_from]. destruct k as [|k].
  - destruct (startswith (c :: s) old).
    + cbn [app]. intros H. right. now apply IH in H.
    + intros [H|H]; [now left | right; now apply IH in H].
  - intros H. right. now apply IH in H.
Qed.

Lemma extract_username_incl (result : list str) (x : char) :
  In x (extract_username result) ->
  exists line, In line result /\ In x line.
Proof.
  induction result as [|line rest IH]; [intros []|].
  cbn [extract_username].
  destruct (startswith line (py "Username:")).
  - intros H. exists line. split; [now left|].
    now apply replace_from_incl in H.
  - intros H. destruct (IH H) as [l [Hl Hx]].
    exists l. split; [now right | assumption].
Qed.

(** X5: [get_data] raises exactly when its call of [subprocess.run]
    raises, and then that exception.  Whenever the call returns, whatever
    the [get] command printed, the credential is fit to be typed: its
    password has no white space at either end (so [strip] would leave it
    alone), and neither the password nor the username holds a newline.
    Either way [self] is unchanged and the one call is logged. *)
Theorem fetched_credential_is_one_line_each
        (env : Env) (name folder : str) (self : t) (tr : list event) :
  match get_data name folder env self tr with
  | (Ok data, self', tr') =>
      raises env (Run (get_command name folder)) = None
      /\ self' = self
      /\ tr' = tr ++ [Run (get_command name folder)]
      /\ trimmed (password data) = true
      /\ strip (password data) = password data
      /\ ~ In NL (password data)
      /\ ~ In NL (username data)
  | (Raise e, self', tr') =>
      raises env (Run (get_command name folder)) = Some e
      /\ self' = self
      /\ tr' = tr ++ [Run (get_command name folder)]
  end.
Proof.
  rewrite get_data_anywhere.
  destruct (raises env (Run (get_command name folder))) as [e|];
    [repeat split|].
  set (output := stdout (subprocess_run (answers env)
                                        (get_command name folder))).
  pose proof (split_parts_free NL output) as Hfree.
  unfold fetched. cbn [password username].
  split; [reflexivity|]. split; [reflexivity|]. split; [reflexivity|].
  split; [apply strip_trimmed|].
  split; [apply strip_fixed, strip_trimmed|].
  split.
  - intros H. apply strip_incl in H.
    destruct (split NL output) as [|first rest]; [destruct H|].
    inversion Hfree; subst. cbn [hd] in H. contradiction.
  - intros H. apply extract_username_incl in H as [line [Hline Hx]].
    rewrite Forall_forall in Hfree. now apply (Hfree line Hline).
Qed.


(** X7: the selector's exit status decides the kind of delivery, whatever
    action was configured: after status 10, 11 or 12 the executor types
    and copies nothing, after 20 or 21 it copies and types nothing, after 1
    the run has ended and nothing is delivered at all; typing goes to the
    window [self] held before the resolver ran. *)
Theorem exit_status_decides_the_delivery
        (w : World) (self : t) (tr : list event) (rc : Z) (data : Data) :
  let resolved :=
    (choose_action_from_return_code rc ;; execute_action data) w self tr in
  (rc = 1%Z -> resolved = (Raise (SystemExit None), self, tr))
  /\ (rc = 10%Z \/ rc = 11%Z \/ rc = 12%Z ->
      exists characters,
        snd resolved = tr ++ [TypeCharacters characters (active_window self)])
  /\ (rc = 20%Z \/ rc = 21%Z ->
      exists characters, snd resolved = tr ++ [CopyToClipboard characters])
  /\ (rc <> 1%Z ->
      exists a,
        snd resolved = tr ++ [delivery a data (active_window self)]).
Proof.
  cbv zeta. unfold bind. rewrite choose_action_run.
  split; [intros ->; reflexivity|].
  split; [intros [-> | [-> | ->]]; cbv beta iota delta [resolve_action];
          rewrite execute_action_run;
          eexists; reflexivity|].
  split; [intros [-> | ->]; cbv beta iota delta [resolve_action];
          rewrite execute_action_run;
          eexists; reflexivity|].
  intros Hrc.
  destruct (resolve_action rc (action (args self))) as [|a] eqn:E.
  - now apply resolve_action_terminate in E.
  - rewrite execute_action_run. cbn. now exists a.
Qed.

Lemma exit_status_decides_the_delivery_witness :
  (choose_action_from_return_code 1 ;; execute_action Sample.bob)
    Sample.picks_work Sample.self0 []
  = (Raise (SystemExit None), Sample.self0, [])
  /\ (exists characters,
        snd ((choose_action_from_return_code 10 ;; execute_action Sample.bob)
               Sample.picks_work Sample.self0 [])
        = [TypeCharacters characters (active_window Sample.self0)])
  /\ (exists characters,
        snd ((choose_action_from_return_code 20 ;; execute_action Sample.bob)
               Sample.picks_work Sample.self0 [])
        = [CopyToClipboard characters])
  /\ (exists a,
        snd ((choose_action_from_return_code 0 ;; execute_action Sample.bob)
               Sample.picks_work Sample.self0 [])
        = [delivery a Sample.bob (active_window Sample.self0)]).
Proof.
  split; [|split; [|split]].
  - apply (exit_status_decides_the_delivery
             Sample.picks_work Sample.self0 [] 1 Sample.bob).
    reflexivity.
  - apply (exit_status_decides_the_delivery
             Sample.picks_work Sample.self0 [] 10 Sample.bob).
    left; reflexivity.
  - apply (exit_status_decides_the_delivery
             Sample.picks_work Sample.self0 [] 20 Sample.bob).
    left; reflexivity.
  - apply (exit_status_decides_the_delivery
             Sample.picks_work Sample.self0 [] 0 Sample.bob).
    discriminate.
Defined.

End Credential.

(* ------------------------------------------------------------------ *)
(** ** Further properties: how a run ends *)

Section Endings.
Import RofiRbw Spec.

(** X8: how [main] ends.  If the listing command cannot be run or
    decoded, [main] ends with that exception and the selector is never
    called; if the selector raises, with that one.  Otherwise the
    selector's answer alone decides: [main] leaves cleanly on exit status
    1, raises [ValueError] when the chosen line has no slash and
    [TypeError] when it has one.  It never returns, and it calls nothing
    but the listing command and the selector. *)
Theorem main_ends_by_the_answer (env : Env) (self : t) (tr : list event) :
  let listing := stdout (subprocess_run (answers env) ls_command) in
  let answer := selected (answers env) self in
  fst (fst (RofiRbw.main env self tr))
  = match raises env (Run ls_command) with
    | Some e => Raise e
    | None =>
        match raises env (selection listing self) with
        | Some e => Raise e
        | None =>
            if (fst answer =? 1)%Z then Raise (SystemExit None)
            else if mem SLASH (snd answer) then Raise TypeError
                 else Raise ValueError
        end
    end
  /\ snd (RofiRbw.main env self tr)
     = tr ++ Run ls_command ::
             match raises env (Run ls_command) with
             | Some _ => []
             | None => [selection listing self]
             end.
Proof.
  cbv zeta. rewrite main_anywhere. cbv zeta.
  destruct (raises env (Run ls_command)) as [e|]; [now split|].
  destruct (raises env (selection _ _)) as [e|]; [now split|].
  destruct (Z.eqb_spec (fst (selected (answers env) self)) 1) as [->|Hrc];
    [now split|].
  destruct (resolve_action (fst (selected (answers env) self))
                           (action (args self)))
    eqn:E; [now apply resolve_action_terminate in E|].
  cbn [fst snd]. rewrite stops_at_mem.
  split; [|reflexivity].
  now destruct (mem SLASH (snd (selected (answers env) self))).
Qed.

(** X9: when the unpacking of the chosen line succeeds, the line is the
    folder, a slash and the entry, and the entry holds no slash: the line
    is cut at its last slash, so a folder may hold slashes itself.  The
    unpacking changes nothing and calls nothing. *)
Theorem unpacked_line_is_folder_slash_entry
        (w : World) (self self' : t) (tr tr' : list event)
        (line selected_folder selected_entry : str) :
  unpack2 (rsplit1 SLASH line) w self tr
  = (Ok (selected_folder, selected_entry), self', tr') ->
  line = selected_folder ++ SLASH :: selected_entry
  /\ ~ In SLASH selected_entry
  /\ self' = self /\ tr' = tr.
Proof.
  intros H.
  destruct (rsplit1_shape SLASH line) as [[x Hx]|[x [y Hxy]]].
  - rewrite Hx in H. discriminate H.
  - rewrite Hxy in H. cbn in H. injection H as <- <- <- <-.
    destruct (rsplit1_two _ _ Hxy) as [Hline Hfree].
    repeat split; assumption.
Qed.

Lemma unpacked_line_is_folder_slash_entry_witness :
  py "Work/Mail/bob" = py "Work/Mail" ++ SLASH :: py "bob"
  /\ ~ In SLASH (py "bob")
  /\ Sample.self0 = Sample.self0 /\ @nil event = [].
Proof.
  apply (@unpacked_line_is_folder_slash_entry
           Sample.picks_work Sample.self0 Sample.self0 [] []
           (py "Work/Mail/bob") (py "Work/Mail") (py "bob")).
  reflexivity.
Defined.

End Endings.

(* ------------------------------------------------------------------ *)
(** ** Further properties: the arguments and the whole script *)

Section ParsedArguments.
Import RofiRbw Spec.

Lemma find_action (v : str) :
  existsb (str_eqb v) (map value members) = true ->
  exists a, find (fun a => str_eqb (value a) v) members = Some a
            /\ value a = v.
Proof.
  intros H. apply existsb_exists in H as [x [Hin Hx]].
  apply str_eqb_eq in Hx. subst x.
  apply in_map_iff in Hin as [a [Ha _]].
  destruct (find (fun a => str_eqb (value a) v) members) as [b|] eqn:E.
  - exists b. split; [reflexivity|].
    apply find_some in E as [_ E]. now apply str_eqb_eq in E.
  - exfalso.
    assert (In a members) as Hmem by (destruct a; simpl; tauto).
    apply (find_none _ _ E) in Hmem. cbv beta in Hmem.
    rewrite Ha in Hmem.
    assert (str_eqb v v = true) as Hrefl by now apply str_eqb_eq.
    congruence.
Qed.

Lemma value_injective (a b : Action) : value a = value b -> a = b.
Proof. destruct a, b; intros H; reflexivity || discriminate H. Qed.

(** The declared options, option by option, in any environment. *)
Lemma parse_options_cases (env : Env) (cl : CommandLine) :
  parse_options env cl =
  if valid_choices cl then
    if shlex_rejects env (or_default [] (opt_rofi_args cl))
    then Raise ValueError
    else
      match find (fun a => str_eqb (value a)
                             (or_default (py "type-password") (opt_action cl)))
                 members with
      | Some a =>
          Ok {| action := a;
                prompt := or_default (py "Select entry") (opt_prompt cl);
                rofi_args := shlex_split (answers env)
                                         (or_default [] (opt_rofi_args cl));
                selector := opt_selector cl;
                clipboarder := opt_clipboarder cl;
                typer := opt_typer cl;
                show_help := match opt_show_help cl with
                             | Some v => bool_of_str v
                             | None => true
                             end |}
      | None => Raise StopIteration
      end
  else Raise (SystemExit (Some 2%Z)).
Proof.
  destruct cl as [[va|] [p|] [r|] [vs|] [vc|] [vt|] [h|]];
    unfold parse_options, valid_choices, then_, store, choice_ok,
      optional_one_of, one_of, any, or_default;
    cbn [opt_action opt_prompt opt_rofi_args opt_selector opt_clipboarder
         opt_typer opt_show_help];
    change (map value members)
      with [py "type-password"; py "type-username"; py "autotype";
            py "copy-username"; py "copy-password"];
    repeat match goal with
           | |- context [existsb (str_eqb ?v) ?l] =>
               destruct (existsb (str_eqb v) l)
           end;
    reflexivity.
Qed.

Lemma parse_arguments_cases (w : World) (cl : CommandLine) :
  parse_arguments w cl =
  if valid_choices cl then
    match find (fun a => str_eqb (value a)
                           (or_default (py "type-password") (opt_action cl)))
               members with
    | Some a =>
        Ok {| action := a;
              prompt := or_default (py "Select entry") (opt_prompt cl);
              rofi_args := shlex_split w (or_default [] (opt_rofi_args cl));
              selector := opt_selector cl;
              clipboarder := opt_clipboarder cl;
              typer := opt_typer cl;
              show_help := match opt_show_help cl with
                           | Some v => bool_of_str v
                           | None => true
                           end |}
    | None => Raise StopIteration
    end
  else Raise (SystemExit (Some 2%Z)).
Proof.
  change (parse_arguments w cl) with (parse_options w cl).
  rewrite parse_options_cases. reflexivity.
Qed.

(** With acceptable choices the lookup of the action succeeds. *)
Lemma action_is_found (cl : CommandLine) :
  valid_choices cl = true ->
  exists a,
    find (fun a => str_eqb (value a)
                     (or_default (py "type-password") (opt_action cl)))
         members = Some a.
Proof.
  intros Hvalid. unfold valid_choices in Hvalid.
  apply andb_true_iff in Hvalid as [Hvalid _].
  apply andb_true_iff in Hvalid as [Hvalid _].
  apply andb_true_iff in Hvalid as [Hvalid _].
  destruct (opt_action cl) as [v|]; cbn [or_default].
  - destruct (find_action v Hvalid) as [a [Ha _]]. now exists a.
  - now exists TYPE_PASSWORD.
Qed.

(** X10: when [parse_arguments] returns, [action] is the member of the
    enumeration whose value is the [--action] given, or [TYPE_PASSWORD]
    without one; [prompt] defaults to [Select entry], [rofi_args] is
    [shlex.split] of the option or of the empty string, [show_help]
    defaults to [True], and the three backend names are passed on as
    given. *)
Theorem parsed_namespace (w : World) (cl : CommandLine) (n : Namespace) :
  parse_arguments w cl = Ok n ->
  value (action n) = or_default (py "type-password") (opt_action cl)
  /\ (opt_action cl = None -> action n = TYPE_PASSWORD)
  /\ prompt n = or_default (py "Select entry") (opt_prompt cl)
  /\ rofi_args n = shlex_split w (or_default [] (opt_rofi_args cl))
  /\ selector n = opt_selector cl
  /\ clipboarder n = opt_clipboarder cl
  /\ typer n = opt_typer cl
  /\ (opt_show_help cl = None -> show_help n = true).
Proof.
  rewrite parse_arguments_cases.
  destruct (valid_choices cl); [|discriminate].
  destruct (find _ members) as [a|] eqn:E; [|discriminate].
  intros H. injection H as <-. cbn.
  apply find_some in E as [_ E]. apply str_eqb_eq in E.
  repeat split; try assumption.
  - intros Hnone. rewrite Hnone in E. now apply value_injective.
  - now intros ->.
Qed.

Lemma parsed_namespace_witness :
  exists n,
    parse_arguments Sample.picks_work (only_action (py "autotype")) = Ok n
    /\ value (action n) = py "autotype"
    /\ prompt n = py "Select entry".
Proof.
  eexists. split; [reflexivity|].
  pose proof (@parsed_namespace Sample.picks_work
                (only_action (py "autotype")) _ eq_refl) as [Ha [_ [Hp _]]].
  split; [exact Ha | exact Hp].
Defined.

(** X11: each of the five actions is selected by its own value:
    [--action] with the value of an action parses, and to that very
    action, so no two actions share a value. *)
Theorem every_action_is_selectable (w : World) (a : Action) :
  exists n,
    parse_arguments w (only_action (value a)) = Ok n
    /\ action n = a
    /\ value (action n) = value a.
Proof.
  destruct a; eexists; repeat split.
Qed.

(** X12: [parse_arguments] fails in three ways and no other: with
    exit status 0 on [--help] and [--version]; with exit status 2 on a
    command line [argparse] refuses, which for the declared options means
    a value outside the [choices] of [--action], [--selector],
    [--clipboarder] or [--typer]; and with [ValueError] when [shlex.split]
    rejects the value of [--rofi-args].  Otherwise it returns, so the
    lookup of the action by [next] never raises [StopIteration].  When it
    fails, the script ends with that exception before anything outside it
    is called. *)
Theorem arguments_fail_in_three_ways (env : Env) (argv : Invocation) :
  match argv with
  | Help | Version => parse_arguments env argv = Raise (SystemExit (Some 0%Z))
  | Malformed => parse_arguments env argv = Raise (SystemExit (Some 2%Z))
  | Options cl =>
      if valid_choices cl
      then if shlex_rejects env (or_default [] (opt_rofi_args cl))
           then parse_arguments env argv = Raise ValueError
           else exists n, parse_arguments env argv = Ok n
      else parse_arguments env argv = Raise (SystemExit (Some 2%Z))
  end
  /\ parse_arguments env argv <> Raise StopIteration
  /\ (forall e, parse_arguments env argv = Raise e ->
                rofi_rbw.main env argv = (Raise e, [])).
Proof.
  assert (match argv with
          | Help | Version =>
              parse_arguments env argv = Raise (SystemExit (Some 0%Z))
          | Malformed =>
              parse_arguments env argv = Raise (SystemExit (Some 2%Z))
          | Options cl =>
              if valid_choices cl
              then if shlex_rejects env (or_default [] (opt_rofi_args cl))
                   then parse_arguments env argv = Raise ValueError
                   else exists n, parse_arguments env argv = Ok n
              else parse_arguments env argv = Raise (SystemExit (Some 2%Z))
          end) as Hcases.
  { destruct argv as [| | |cl]; try reflexivity.
    cbn [parse_arguments]. rewrite parse_options_cases.
    destruct (valid_choices cl) eqn:Hvalid; [|reflexivity].
    destruct (shlex_rejects env _); [reflexivity|].
    destruct (action_is_found cl Hvalid) as [a ->]. now eexists. }
  split; [exact Hcases|].
  split.
  - destruct argv as [| | |cl]; try (rewrite Hcases; discriminate).
    destruct (valid_choices cl); [|rewrite Hcases; discriminate].
    destruct (shlex_rejects env _); [rewrite Hcases; discriminate|].
    destruct Hcases as [n ->]. discriminate.
  - intros e He. unfold rofi_rbw.main, init. now rewrite He.
Qed.

Lemma arguments_fail_in_three_ways_witness :
  rofi_rbw.main Sample.picks_work Version = (Raise (SystemExit (Some 0%Z)), [])
  /\ rofi_rbw.main Sample.picks_work
       {| opt_action := None; opt_prompt := None; opt_rofi_args := None;
          opt_selector := Some (py "dmenu"); opt_clipboarder := None;
          opt_typer := None; opt_show_help := None |}
     = (Raise (SystemExit (Some 2%Z)), []).
Proof.
  split.
  - apply (arguments_fail_in_three_ways Sample.picks_work Version).
    reflexivity.
  - apply (arguments_fail_in_three_ways Sample.picks_work
             (Options {| opt_action := None; opt_prompt := None;
                         opt_rofi_args := None;
                         opt_selector := Some (py "dmenu");
                         opt_clipboarder := None; opt_typer := None;
                         opt_show_help := None |})).
    reflexivity.
Defined.

Lemma parse_failure_is_an_ending
      (env : Env) (argv : Invocation) (e : exn) :
  parse_arguments env argv = Raise e -> is_ending e = true.
Proof.
  intros He.
  destruct (arguments_fail_in_three_ways env argv) as [Hcases _].
  destruct argv as [| | |cl].
  - rewrite Hcases in He. now injection He as <-.
  - rewrite Hcases in He. now injection He as <-.
  - rewrite Hcases in He. now injection He as <-.
  - destruct (valid_choices cl).
    + destruct (shlex_rejects env _).
      * rewrite Hcases in He. now injection He as <-.
      * destruct Hcases as [n Hn]. congruence.
    + rewrite Hcases in He. now injection He as <-.
Qed.

(** X13: the module's [main()] never returns: in every environment and
    on every command line the run ends with an exception, which is either
    one the script's own statements raise (an [argparse] exit with status
    0 or 2, the [SystemExit] of a cancelled selection, [ValueError],
    [TypeError]) or one that an external call or a [best_option] raised.
    By then the script has made at most three calls, and it has never run
    the [get] command, typed or copied anything.  Without [rbw] the run
    ends with [FileNotFoundError] before the selector is shown. *)
Theorem script_never_returns (env : Env) (argv : Invocation) :
  (exists e,
     fst (rofi_rbw.main env argv) = Raise e
     /\ (is_ending e = true \/ raised_outside env e))
  /\ forallb (fun ev => negb (is_typing ev || is_copying ev || is_fetch ev))
             (snd (rofi_rbw.main env argv)) = true
  /\ length (snd (rofi_rbw.main env argv)) <= 3
  /\ (forall w, rofi_rbw.main (without_rbw w) Sample.no_options
                = (Raise FileNotFoundError, [GetActiveWindow; Run ls_command])).
Proof.
  split; [|split; [|split]].
  - unfold rofi_rbw.main, init.
    destruct (parse_arguments env argv) as [a|e] eqn:Hparse.
    2:{ exists e. split; [reflexivity|]. left.
        now apply (parse_failure_is_an_ending env argv). }
    destruct (best_option_raises env SelectorClass _) as [e|] eqn:E1.
    { exists e. split; [reflexivity|]. right; right.
      do 2 eexists. exact E1. }
    destruct (best_option_raises env TyperClass _) as [e|] eqn:E2.
    { exists e. split; [reflexivity|]. right; right.
      do 2 eexists. exact E2. }
    destruct (best_option_raises env ClipboarderClass _) as [e|] eqn:E3.
    { exists e. split; [reflexivity|]. right; right.
      do 2 eexists. exact E3. }
    destruct (raises env GetActiveWindow) as [e|] eqn:E4.
    { exists e. split; [reflexivity|]. right; left.
      eexists. exact E4. }
    rewrite main_anywhere. cbv zeta.
    destruct (raises env (Run ls_command)) as [e|] eqn:E5.
    { exists e. split; [reflexivity|]. right; left.
      eexists. exact E5. }
    destruct (raises env (selection _ _)) as [e|] eqn:E6.
    { exists e. split; [reflexivity|]. right; left.
      eexists. exact E6. }
    destruct (resolve_action _ _).
    + eexists. split; [reflexivity|]. now left.
    + eexists. split; [reflexivity|]. left.
      rewrite stops_at_mem. now destruct (mem SLASH _).
  - destruct (script_cases env argv)
      as [[e ->]|[[e ->]|[[e ->]|[e [self ->]]]]]; reflexivity.
  - destruct (script_cases env argv)
      as [[e ->]|[[e ->]|[[e ->]|[e [self ->]]]]]; cbn; lia.
  - reflexivity.
Qed.

End ParsedArguments.
